(** * migratube: bulk subscription to YouTube channels

    A shallow embedding of [bulk_subscribe.py] (class
    [YouTubeBulkSubscriber]) and the properties of its three parts: the
    resolution of a channel reference to a channel id, the subscription to
    one channel, and the loop over a list of references.

    Python values are modelled as follows.
    - [str] is [string]; a character is a code point below 256.
    - the counters are [nat] (Python integers are unbounded and these two
      only grow from 0).
    - the [delay] and the success rate are rationals [Q]; the rounding of the
      float and of the [:.1f] format is not modelled.
    - an exception is a value of [exn]; a computation returns [Ok v] or
      [Raise e].
    - the YouTube client ([self.youtube]) is a record of four operations over
      an abstract state of the remote service.
    - the console and the clock are a list of events emitted by the
      computation, in order. *)

From Stdlib Require Import String Ascii List Bool Arith Lia QArith.
Import ListNotations.
Close Scope Q_scope.
Open Scope string_scope.
Open Scope list_scope.

(** ** Python string operations *)

Module PyStr.

(** [s.startswith(p)] *)
Fixpoint startswith (p s : string) : bool :=
  match p with
  | EmptyString => true
  | String a p' =>
      match s with
      | EmptyString => false
      | String b s' => if Ascii.eqb a b then startswith p' s' else false
      end
  end.

(** [sub in s] *)
Fixpoint contains (sub s : string) : bool :=
  startswith sub s ||
  match s with
  | EmptyString => false
  | String _ s' => contains sub s'
  end.

(** [s.split(sep)] for a separator that is not empty (Python raises
    [ValueError] on an empty one; the program only splits on the literals
    ["channel/"], ["c/"], ["user/"], ["@"] and ["?"]).  The text is scanned
    from the left; [skip] counts the characters of a separator just matched
    that are still to be dropped. *)
Fixpoint split_from (sep : string) (skip : nat) (s : string) : list string :=
  match s with
  | EmptyString => [EmptyString]
  | String c s' =>
      match skip with
      | S k => split_from sep k s'
      | O =>
          if startswith sep s
          then EmptyString :: split_from sep (String.length sep - 1) s'
          else match split_from sep 0 s' with
               | p :: ps => String c p :: ps
               | [] => [String c EmptyString]
               end
      end
  end.

Definition split (sep s : string) : list string := split_from sep 0 s.

(** [l[-1]] and [l[0]] on the result of a split, which is never empty. *)
Definition last_piece (l : list string) : string := List.last l EmptyString.
Definition first_piece (l : list string) : string := List.hd EmptyString l.

(** [sep.join(l)] *)
Fixpoint join (sep : string) (l : list string) : string :=
  match l with
  | [] => EmptyString
  | [p] => p
  | p :: ps => (p ++ sep ++ join sep ps)%string
  end.

(** [c.isspace()] for a code point below 256. *)
Definition isspace (c : ascii) : bool :=
  let n := nat_of_ascii c in
  (((9 <=? n) && (n <=? 13)) || ((28 <=? n) && (n <=? 32))
   || (n =? 133) || (n =? 160))%nat.

Fixpoint lstrip (s : string) : string :=
  match s with
  | EmptyString => EmptyString
  | String c s' => if isspace c then lstrip s' else s
  end.

Fixpoint rstrip (s : string) : string :=
  match s with
  | EmptyString => EmptyString
  | String c s' =>
      match rstrip s' with
      | EmptyString => if isspace c then EmptyString else String c EmptyString
      | t => String c t
      end
  end.

(** [s.strip()] *)
Definition strip (s : string) : string := rstrip (lstrip s).

End PyStr.

(** ** Results and exceptions *)

#[local] Set Warnings "-register-all".

(** A JSON document, as [json.loads] returns it: an object is the list of
    its members, looked up by key. *)
Inductive json : Type :=
| JNull
| JBool (b : bool)
| JNum (z : Z)
| JStr (s : string)
| JArr (items : list json)
| JObj (members : list (string * json)).

(** The exceptions of the program, all of them subclasses of [Exception].
    [HttpError] is the error of the API client; its [content] is the body of
    the response: [Some j] when the bytes are the UTF-8 text of the JSON
    document [j], [None] when they are not JSON.  [TransportError] stands for
    the other errors of a request (a timeout, a refused connection), which
    are not [HttpError].  [OverflowError] is the one of [time.sleep]. *)
Inductive exn : Type :=
| HttpError (content : option json)
| ValueError (msg : string)
| IndexError
| KeyError (key : string)
| AttributeError
| TypeError
| ZeroDivisionError
| TransportError (msg : string)
| OverflowError.

Inductive result (A : Type) : Type :=
| Ok (v : A)
| Raise (e : exn).

Arguments Ok {A} v.
Arguments Raise {A} e.

Definition rbind {A B} (r : result A) (f : A -> result B) : result B :=
  match r with
  | Ok v => f v
  | Raise e => Raise e
  end.

Declare Scope result_scope.
Delimit Scope result_scope with result.
Notation "x <~ r ;; k" := (rbind r (fun x => k))
  (at level 61, r at next level, right associativity) : result_scope.

Module PyJson.

Fixpoint assoc (k : string) (members : list (string * json)) : option json :=
  match members with
  | [] => None
  | (k', v) :: rest => if String.eqb k k' then Some v else assoc k rest
  end.

(** [json.loads(e.content.decode("utf-8"))]: a body that is not JSON raises
    [UnicodeDecodeError] or [JSONDecodeError], both [ValueError]s. *)
Definition loads (content : option json) : result json :=
  match content with
  | Some j => Ok j
  | None => Raise (ValueError "Expecting value")
  end.

(** [d.get(k, default)]: only a dict has the method. *)
Definition get (d : json) (k : string) (default : json) : result json :=
  match d with
  | JObj members =>
      Ok (match assoc k members with Some v => v | None => default end)
  | _ => Raise AttributeError
  end.

(** [x[0]] *)
Definition item0 (x : json) : result json :=
  match x with
  | JArr (v :: _) => Ok v
  | JArr [] => Raise IndexError
  | JStr (String c _) => Ok (JStr (String c EmptyString))
  | JStr EmptyString => Raise IndexError
  | JObj _ => Raise (KeyError "0")
  | _ => Raise TypeError
  end.

(** [x == s] for a string literal [s]. *)
Definition eq_str (x : json) (s : string) : bool :=
  match x with
  | JStr t => String.eqb t s
  | _ => false
  end.

End PyJson.

(** ** What the program does to the outside *)

(** A request to the YouTube Data API, with the arguments that vary. *)
Inductive call : Type :=
| SearchList (q : string)
    (* search().list(q=q, type="channel", part="id", maxResults=1) *)
| ChannelsList (forUsername : string)
    (* channels().list(forUsername=..., part="id") *)
| SubscriptionsList (forChannelId : string)
    (* subscriptions().list(part="id", forChannelId=..., mine=True) *)
| SubscriptionsInsert (channelId : string).
    (* subscriptions().insert(part="snippet", body=...) *)

(** The lines the program prints, one constructor per [print]. *)
Inductive message : Type :=
| MsgStarting (n : nat)
| MsgProcessing (i n : nat) (url : string)
| MsgErrorResolving (url : string) (e : exn)
| MsgErrorUsername (username : string) (e : exn)
| MsgAlreadySubscribed (channel_id : string)
| MsgSubscribed (channel_id : string)
| MsgFailedToSubscribe (channel_id : string) (e : exn)
| MsgErrorProcessing (url : string) (e : exn)
| MsgSummary
| MsgSuccessful (n : nat)
| MsgFailed (n : nat)
| MsgSuccessRate (percent : Q).

Inductive event : Type :=
| Request (c : call)
| Print (m : message)
| Sleep (d : Q).

(** The client [self.youtube]: each operation answers from the state of the
    remote service and moves it.  A search answers the [channelId]s of its
    items, a channel lookup the [id]s of its items, a subscription listing
    the [id]s of the matching subscriptions. *)
Record YouTube (S : Type) : Type := {
  search_list : string -> S -> result (list string) * S;
  channels_list : string -> S -> result (list string) * S;
  subscriptions_list : string -> S -> result (list string) * S;
  subscriptions_insert : string -> S -> result unit * S
}.

Arguments search_list {S} _ _ _.
Arguments channels_list {S} _ _ _.
Arguments subscriptions_list {S} _ _ _.
Arguments subscriptions_insert {S} _ _ _.

(** ** The monad of the program: state of the service, events, exceptions *)

Record Out (S A : Type) : Type := {
  res : result A;
  st : S;
  evs : list event
}.

Arguments res {S A} _.
Arguments st {S A} _.
Arguments evs {S A} _.

Definition M (S A : Type) : Type := S -> Out S A.

Definition ret {S A} (v : A) : M S A :=
  fun s => {| res := Ok v; st := s; evs := [] |}.

Definition raise {S A} (e : exn) : M S A :=
  fun s => {| res := Raise e; st := s; evs := [] |}.

Definition bind {S A B} (m : M S A) (f : A -> M S B) : M S B :=
  fun s =>
    let o := m s in
    match res o with
    | Ok v =>
        let o' := f v (st o) in
        {| res := res o'; st := st o'; evs := evs o ++ evs o' |}
    | Raise e => {| res := Raise e; st := st o; evs := evs o |}
    end.

Declare Scope py_scope.
Delimit Scope py_scope with py.
Notation "x <- m ;; k" := (bind m (fun x => k))
  (at level 61, m at next level, right associativity) : py_scope.
Notation "m ;; k" := (bind m (fun _ => k))
  (at level 61, right associativity) : py_scope.
Open Scope py_scope.

Definition lift {S A} (r : result A) : M S A :=
  fun s => {| res := r; st := s; evs := [] |}.

Definition emit {S} (e : event) : M S unit :=
  fun s => {| res := Ok tt; st := s; evs := [e] |}.

Definition print {S} (m : message) : M S unit := emit (Print m).

(** [....execute()]: the request is sent, then the service answers. *)
Definition execute {S A} (c : call) (op : S -> result A * S) : M S A :=
  fun s => let '(r, s') := op s in {| res := r; st := s'; evs := [Request c] |}.

(** [try: body except ...: handler]: [handler e] is [None] when no clause
    matches the class of [e], which then goes on to the caller. *)
Definition try_except {S A} (body : M S A) (handler : exn -> option (M S A))
  : M S A :=
  fun s =>
    let o := body s in
    match res o with
    | Ok _ => o
    | Raise e =>
        match handler e with
        | Some h =>
            let o' := h (st o) in
            {| res := res o'; st := st o'; evs := evs o ++ evs o' |}
        | None => o
        end
    end.

(** [except HttpError as e] *)
Definition except_HttpError {S A} (h : option json -> M S A)
  : exn -> option (M S A) :=
  fun e => match e with
           | HttpError content => Some (h content)
           | _ => None
           end.

(** [except Exception as e] *)
Definition except_Exception {S A} (h : exn -> M S A)
  : exn -> option (M S A) :=
  fun e => Some (h e).

(** [for x in l: body], threading the local variables [b]. *)
Fixpoint for_each {S A B} (l : list A) (body : A -> B -> M S B) (b : B)
  : M S B :=
  match l with
  | [] => ret b
  | x :: l' => b' <- body x b ;; for_each l' body b'
  end.

(** [enumerate(l, start)] *)
Definition enumerate {A} (l : list A) (start : nat) : list (nat * A) :=
  combine (seq start (List.length l)) l.

(** The length of a sleep in nanoseconds, as [time.sleep] takes it from its
    argument: [d * 1e9] rounded away from zero (on the exact product: the
    rounding of the float is not modelled). *)
Definition nanoseconds (d : Q) : Z :=
  let x := (d * 1000000000)%Q in
  if (0 <=? Qnum x)%Z
  then (- (- Qnum x / Zpos (Qden x)))%Z
  else (Qnum x / Zpos (Qden x))%Z.

(** The error of [time.sleep(d)], if it has one: [OverflowError] when the
    nanoseconds do not fit a signed 64-bit integer, which is tested first;
    then [ValueError] when they are negative. *)
Definition time_sleep_error (d : Q) : option exn :=
  let ns := nanoseconds d in
  if ((ns <? - 2 ^ 63) || (2 ^ 63 <=? ns))%Z then Some OverflowError
  else if (ns <? 0)%Z
       then Some (ValueError "sleep length must be non-negative")
       else None.

(** [time.sleep(d)] *)
Definition time_sleep {S} (d : Q) : M S unit :=
  match time_sleep_error d with
  | Some e => raise e
  | None => emit (Sleep d)
  end.

(** ** The program: class [YouTubeBulkSubscriber] *)

Import PyStr.

Section Subscriber.

Context {S : Type}.

(** [self.youtube], built by [authenticate]. *)
Variable youtube : YouTube S.

(** [urllib.parse.urlparse], a library function: the program drops what it
    returns, so only its [ValueError] is kept ([Some msg] on a text it
    rejects, such as an unbalanced bracket in the host). *)
Variable urlparse_error : string -> option string.

Definition urlparse (url : string) : M S unit :=
  match urlparse_error url with
  | Some msg => raise (ValueError msg)
  | None => ret tt
  end.

(** [resolve_custom_url] *)
Definition resolve_custom_url (url : string) : M S string :=
  try_except
    (let search_query :=
       if contains "@" url
       then
         let handle := first_piece (split "?" (last_piece (split "@" url))) in
         ("@" ++ handle)%string
       else
         let custom_name :=
           first_piece (split "?" (last_piece (split "c/" url))) in
         custom_name in
     items <- execute (SearchList search_query)
                      (search_list youtube search_query) ;;
     match items with
     | channelId :: _ => ret channelId
     | [] => raise (ValueError ("Could not find channel for URL: " ++ url)%string)
     end)
    (except_HttpError (fun content =>
       print (MsgErrorResolving url (HttpError content)) ;;
       raise (HttpError content))).

(** [get_channel_id_by_username] *)
Definition get_channel_id_by_username (username : string) : M S string :=
  try_except
    (items <- execute (ChannelsList username)
                      (channels_list youtube username) ;;
     match items with
     | id :: _ => ret id
     | [] =>
         raise (ValueError ("Channel not found for username: " ++ username)%string)
     end)
    (except_HttpError (fun content =>
       print (MsgErrorUsername username (HttpError content)) ;;
       raise (HttpError content))).

(** [extract_channel_id] *)
Definition extract_channel_id (url : string) : M S string :=
  urlparse url ;;
  if contains "channel/" url then
    ret (first_piece (split "?" (last_piece (split "channel/" url))))
  else if contains "c/" url || contains "@" url then
    resolve_custom_url url
  else if contains "user/" url then
    let username := first_piece (split "?" (last_piece (split "user/" url))) in
    get_channel_id_by_username username
  else
    raise (ValueError ("Unable to parse channel URL: " ++ url)%string).

(** The [error_reason] of the handler of [subscribe_to_channel]:
    [error_details.get("error", {}).get("errors", [{}])[0].get("reason", "unknown")] *)
Definition error_reason (content : option json) : result json :=
  (error_details <~ PyJson.loads content ;;
   error <~ PyJson.get error_details "error" (JObj []) ;;
   errors <~ PyJson.get error "errors" (JArr [JObj []]) ;;
   first <~ PyJson.item0 errors ;;
   PyJson.get first "reason" (JStr "unknown"))%result.

(** [subscribe_to_channel].  The inner [try] answers [Some true] when it
    leaves the function by [return True], [None] when it falls through. *)
Definition subscribe_to_channel (channel_id : string) : M S bool :=
  try_except
    (returned <-
       try_except
         (existing_sub <- execute (SubscriptionsList channel_id)
                                  (subscriptions_list youtube channel_id) ;;
          match existing_sub with
          | _ :: _ =>
              print (MsgAlreadySubscribed channel_id) ;;
              ret (Some true)
          | [] => ret None
          end)
         (except_HttpError (fun _ => ret None)) ;;
     match returned with
     | Some b => ret b
     | None =>
         execute (SubscriptionsInsert channel_id)
                 (subscriptions_insert youtube channel_id) ;;
         print (MsgSubscribed channel_id) ;;
         ret true
     end)
    (except_HttpError (fun content =>
       reason <- lift (error_reason content) ;;
       if PyJson.eq_str reason "subscriptionDuplicate" then
         print (MsgAlreadySubscribed channel_id) ;;
         ret true
       else
         print (MsgFailedToSubscribe channel_id (HttpError content)) ;;
         ret false)).

(** The local variables [successful] and [failed] of [bulk_subscribe]. *)
Record counters : Type := {
  successful : nat;
  failed : nat
}.

(** One turn of the [for] loop of [bulk_subscribe]; [n] is
    [len(channel_urls)]. *)
Definition loop_body (n : nat) (delay : Q) (item : nat * string)
    (c : counters) : M S counters :=
  let '(i, url) := item in
  print (MsgProcessing i n url) ;;
  c' <- try_except
          (channel_id <- extract_channel_id (strip url) ;;
           subscribed <- subscribe_to_channel channel_id ;;
           if subscribed
           then ret {| successful := successful c + 1; failed := failed c |}
           else ret {| successful := successful c; failed := failed c + 1 |})
          (except_Exception (fun e =>
             print (MsgErrorProcessing url e) ;;
             ret {| successful := successful c; failed := failed c + 1 |})) ;;
  (if (i <? n)%nat then time_sleep delay else ret tt) ;;
  ret c'.

(** [successful / (successful + failed) * 100] *)
Definition success_rate (c : counters) : result Q :=
  if (successful c + failed c =? 0)%nat then Raise ZeroDivisionError
  else Ok (inject_Z (Z.of_nat (successful c))
           / inject_Z (Z.of_nat (successful c + failed c)) * 100)%Q.

(** [bulk_subscribe] *)
Definition bulk_subscribe (channel_urls : list string) (delay : Q)
  : M S unit :=
  let n := List.length channel_urls in
  print (MsgStarting n) ;;
  c <- for_each (enumerate channel_urls 1) (loop_body n delay)
                {| successful := 0; failed := 0 |} ;;
  print MsgSummary ;;
  print (MsgSuccessful (successful c)) ;;
  print (MsgFailed (failed c)) ;;
  rate <- lift (success_rate c) ;;
  print (MsgSuccessRate rate).

End Subscriber.

(** ** Notions of the specification, read off the runs of the program *)

(** The part of a reference between the last [marker] and the first ["?"]
    after it: [url] is [before ++ marker ++ id ++ rest], where [marker] does
    not occur after that place, [id] has no ["?"], and [rest] is empty or
    starts with ["?"]. *)
Definition segment_after (marker url id : string) : Prop :=
  exists before rest,
    url = (before ++ marker ++ id ++ rest)%string
    /\ contains marker (id ++ rest) = false
    /\ contains "?" id = false
    /\ (rest = "" \/ startswith "?" rest = true).

(** The requests among the events of a run. *)
Fixpoint requests (l : list event) : list call :=
  match l with
  | [] => []
  | Request c :: l' => c :: requests l'
  | _ :: l' => requests l'
  end.

(** The suspensions among the events of a run. *)
Fixpoint sleeps (l : list event) : list Q :=
  match l with
  | [] => []
  | Sleep d :: l' => d :: sleeps l'
  | _ :: l' => sleeps l'
  end.

(** The pace of a run: [inl i] where item [i] starts (its "Processing"
    line), [inr d] where the run sleeps for [d]. *)
Fixpoint pace (l : list event) : list (nat + Q) :=
  match l with
  | [] => []
  | Print (MsgProcessing i _ _) :: l' => inl i :: pace l'
  | Sleep d :: l' => inr d :: pace l'
  | _ :: l' => pace l'
  end.


(** The items a run starts, in order. *)
Fixpoint processed (l : list event) : list (nat * string) :=
  match l with
  | [] => []
  | Print (MsgProcessing i _ url) :: l' => (i, url) :: processed l'
  | _ :: l' => processed l'
  end.

(** The summary lines of a run. *)
Fixpoint summary (l : list event) : list message :=
  match l with
  | [] => []
  | Print (MsgSuccessful a) :: l' => MsgSuccessful a :: summary l'
  | Print (MsgFailed b) :: l' => MsgFailed b :: summary l'
  | _ :: l' => summary l'
  end.

(** The outcome of the specification for one call of
    [subscribe_to_channel]: the function answers [True] after the line
    "Already subscribed" or after the line "Successfully subscribed", and
    [False] after the line "Failed to subscribe"; it has no outcome when it
    raises. *)
Inductive SubscriptionOutcome : Type :=
| AlreadySubscribed
| Created
| Failed (reason : exn).

Definition outcome_of {S} (o : Out S bool) : option SubscriptionOutcome :=
  match res o, rev (evs o) with
  | Ok true, Print (MsgAlreadySubscribed _) :: _ => Some AlreadySubscribed
  | Ok true, Print (MsgSubscribed _) :: _ => Some Created
  | Ok false, Print (MsgFailedToSubscribe _ e) :: _ => Some (Failed e)
  | _, _ => None
  end.

(** A creation error that reports a duplicate subscription. *)
Definition reports_duplicate (e : exn) : bool :=
  match e with
  | HttpError content =>
      match error_reason content with
      | Ok reason => PyJson.eq_str reason "subscriptionDuplicate"
      | Raise _ => false
      end
  | _ => false
  end.

(** A service keeps its subscriptions when [subscribed c s], "the account
    is subscribed to [c] in state [s]", is what its answers tell: a creation
    that succeeds, a listing that finds an entry and a creation refused as a
    duplicate all leave the account subscribed; a listing does not undo it
    and, once subscribed, fails with an HTTP error at most; a creation for a
    channel already subscribed is refused as a duplicate. *)
Record keeps_subscriptions {S} (yt : YouTube S)
    (subscribed : string -> S -> Prop) : Prop := {
  created_is_subscribed : forall c s s',
    subscriptions_insert yt c s = (Ok tt, s') -> subscribed c s';
  listed_is_subscribed : forall c s x l s',
    subscriptions_list yt c s = (Ok (x :: l), s') -> subscribed c s';
  duplicate_is_subscribed : forall c s e s',
    subscriptions_insert yt c s = (Raise e, s') ->
    reports_duplicate e = true -> subscribed c s';
  listing_keeps : forall c s r s',
    subscribed c s -> subscriptions_list yt c s = (r, s') -> subscribed c s';
  listing_fails_over_http : forall c s e s',
    subscribed c s -> subscriptions_list yt c s = (Raise e, s') ->
    exists content, e = HttpError content;
  creation_is_duplicate : forall c s r s',
    subscribed c s -> subscriptions_insert yt c s = (r, s') ->
    exists e, r = Raise e /\ reports_duplicate e = true
}.

(** [subscribe_to_channel] from the request of creation on, in the state
    [s1] the listing left, as a table of the answers of the service. *)
Definition creation {S} (yt : YouTube S) (c : string) (s1 : S) : Out S bool :=
  let (ri, s2) := subscriptions_insert yt c s1 in
  let sent := [Request (SubscriptionsList c); Request (SubscriptionsInsert c)] in
  match ri with
  | Ok _ =>
      {| res := Ok true; st := s2; evs := sent ++ [Print (MsgSubscribed c)] |}
  | Raise (HttpError content) =>
      match error_reason content with
      | Ok reason =>
          if PyJson.eq_str reason "subscriptionDuplicate"
          then {| res := Ok true; st := s2;
                  evs := sent ++ [Print (MsgAlreadySubscribed c)] |}
          else {| res := Ok false; st := s2;
                  evs := sent
                         ++ [Print (MsgFailedToSubscribe c (HttpError content))] |}
      | Raise x => {| res := Raise x; st := s2; evs := sent |}
      end
  | Raise e => {| res := Raise e; st := s2; evs := sent |}
  end.

(** [subscribe_to_channel] as a table of the answers of the service. *)
Definition subscribe_table {S} (yt : YouTube S) (c : string) (s : S)
  : Out S bool :=
  let (rl, s1) := subscriptions_list yt c s in
  match rl with
  | Ok (_ :: _) =>
      {| res := Ok true; st := s1;
         evs := [Request (SubscriptionsList c);
                 Print (MsgAlreadySubscribed c)] |}
  | Ok [] => creation yt c s1
  | Raise (HttpError _) => creation yt c s1
  | Raise e =>
      {| res := Raise e; st := s1; evs := [Request (SubscriptionsList c)] |}
  end.

(** An item succeeds when [subscribe_to_channel] answers [True]; it fails
    when the call answers [False] and when the resolution or the call
    raises. *)
Definition is_success (r : result bool) : bool :=
  match r with
  | Ok true => true
  | _ => false
  end.

Definition is_failure (r : result bool) : bool := negb (is_success r).

Definition count_if {A} (f : A -> bool) (l : list A) : nat :=
  List.length (filter f l).

(** The counters after one more item of result [r]. *)
Definition record_result (c : counters) (r : result bool) : counters :=
  if is_success r
  then {| successful := successful c + 1; failed := failed c |}
  else {| successful := successful c; failed := failed c + 1 |}.

(** The counters before the first item. *)
Definition start : counters := {| successful := 0; failed := 0 |}.

(** The events of the program that are not of the loop itself: the requests
    and the lines of the resolver and of [subscribe_to_channel]. *)
Definition inner_event (e : event) : bool :=
  match e with
  | Request _ => true
  | Print (MsgErrorResolving _ _) => true
  | Print (MsgErrorUsername _ _) => true
  | Print (MsgAlreadySubscribed _) => true
  | Print (MsgSubscribed _) => true
  | Print (MsgFailedToSubscribe _ _) => true
  | _ => false
  end.

(** The events of one turn of the loop, from the run [a] of its item. *)
Definition item_events {S} (n : nat) (d : Q) (i : nat) (url : string)
    (a : Out S bool) : list event :=
  Print (MsgProcessing i n url)
  :: evs a
  ++ match res a with
     | Raise e => [Print (MsgErrorProcessing url e)]
     | Ok _ => []
     end
  ++ (if (i <? n)%nat then [Sleep d] else []).

Section Items.

Context {S : Type}.
Variable youtube : YouTube S.
Variable urlparse_error : string -> option string.

(** What the loop tries for one reference: resolve it, then subscribe. *)
Definition attempt (url : string) : M S bool :=
  channel_id <- extract_channel_id youtube urlparse_error (strip url) ;;
  subscribe_to_channel youtube channel_id.

(** The result of each item of a list on its own, every item starting from
    the state of the service the one before left, whatever its result. *)
Fixpoint item_results (urls : list string) (s : S) : list (result bool) :=
  match urls with
  | [] => []
  | url :: rest =>
      let o := attempt url s in
      res o :: item_results rest (st o)
  end.

(** The loop as a fold of the runs of its items (for a [delay] that
    [time.sleep] accepts: [time_sleep_error d = None]). *)
Fixpoint loop_run (n : nat) (d : Q) (items : list (nat * string))
    (c : counters) (s : S) : Out S counters :=
  match items with
  | [] => {| res := Ok c; st := s; evs := [] |}
  | (i, url) :: rest =>
      let a := attempt url s in
      let o := loop_run n d rest (record_result c (res a)) (st a) in
      {| res := res o; st := st o; evs := item_events n d i url a ++ evs o |}
  end.

End Items.


(** ** Services to run the program on *)

Module Demo.

Definition error_body (reason : string) : option json :=
  Some (JObj [("error",
               JObj [("errors", JArr [JObj [("reason", JStr reason)]])])]).

(** An account, as the list of the channels it is subscribed to.  A handle
    search finds one channel, a subscription to a channel of the list is
    refused as a duplicate. *)
Definition account : YouTube (list string) := {|
  search_list q s :=
    (if String.eqb q "@someuser" then Ok ["UCsearched"] else Ok [], s);
  channels_list u s := (Ok [], s);
  subscriptions_list c s :=
    (if existsb (String.eqb c) s then Ok ["subscription-1"] else Ok [], s);
  subscriptions_insert c s :=
    if existsb (String.eqb c) s
    then (Raise (HttpError (error_body "subscriptionDuplicate")), s)
    else (Ok tt, c :: s)
|}.

(** A service that cannot be reached: every request times out. *)
Definition unreachable : YouTube unit := {|
  search_list _ s := (Raise (TransportError "timed out"), s);
  channels_list _ s := (Raise (TransportError "timed out"), s);
  subscriptions_list _ s := (Raise (TransportError "timed out"), s);
  subscriptions_insert _ s := (Raise (TransportError "timed out"), s)
|}.

(** A service that answers the listing and loses the connection on the
    creation. *)
Definition drops_insert : YouTube unit := {|
  search_list _ s := (Ok [], s);
  channels_list _ s := (Ok [], s);
  subscriptions_list _ s := (Ok [], s);
  subscriptions_insert _ s := (Raise (TransportError "connection reset"), s)
|}.

(** A service whose listing is refused and whose creation is over quota. *)
Definition over_quota : YouTube unit := {|
  search_list _ s := (Raise (HttpError (error_body "quotaExceeded")), s);
  channels_list _ s := (Raise (HttpError (error_body "quotaExceeded")), s);
  subscriptions_list _ s := (Raise (HttpError (error_body "forbidden")), s);
  subscriptions_insert _ s :=
    (Raise (HttpError (error_body "quotaExceeded")), s)
|}.

(** A [urlparse] that accepts every text. *)
Definition lenient : string -> option string := fun _ => None.

(** The references of the example of the specification. *)
Definition references : list string :=
  ["https://www.youtube.com/channel/UCabc123";
   "https://www.youtube.com/@someuser";
   "not-a-url"].

End Demo.

(** ** The list of references: [load_urls_from_csv] *)

Module Csv.

(** [c.lower()] for a code point below 256: the capital letters of ASCII
    and of Latin-1 (all of 192..222 but the sign 215). *)
Definition lower_char (c : ascii) : ascii :=
  let n := nat_of_ascii c in
  if (((65 <=? n) && (n <=? 90))
      || ((192 <=? n) && (n <=? 222) && negb (n =? 215)))%nat
  then ascii_of_nat (n + 32)
  else c.

(** [s.lower()] *)
Fixpoint lower (s : string) : string :=
  match s with
  | EmptyString => EmptyString
  | String c s' => String (lower_char c) (lower s')
  end.

(** What [open(csv_file)] and [csv.reader] give: no such file; another
    error of [open]; or the rows the reader yields, one list of cells per
    row, followed by the end of the file ([None]) or by an error of the
    reader or of the decoding ([Some e]). *)
Inductive file : Type :=
| Missing
| OpenFails (e : exn)
| Content (rows : list (list string)) (failure : option exn).

(** The lines [load_urls_from_csv] prints.  The line of a row with no
    second column has no constructor: its [except IndexError] guards a
    [row[1]] that is read after [len(row) >= 2] only. *)
Inductive message : Type :=
| MsgSkippingHeader (first_row : list string)
| MsgEmptyOrMalformed
| MsgLoaded (n : nat) (csv_file : string)
| MsgNotFound (csv_file : string)
| MsgError (e : exn).

(** [any(url_indicator in str(cell).lower() for url_indicator in
    ["youtube.com", "youtu.be", "http"])] *)
Definition looks_like_url (cell : string) : bool :=
  existsb (fun url_indicator => contains url_indicator (lower cell))
          ["youtube.com"; "youtu.be"; "http"].

(** [if len(row) >= 2 and row[1].strip(): channel_urls.append(row[1].strip())]:
    what one row adds to the list. *)
Definition cell_of (row : list string) : list string :=
  match nth_error row 1 with
  | Some cell =>
      match strip cell with
      | EmptyString => []
      | url => [url]
      end
  | None => []
  end.

(** [load_urls_from_csv]: the lines printed and the list returned. *)
Definition load_urls_from_csv (csv_file : string) (f : file)
  : list message * list string :=
  match f with
  | Missing => ([MsgNotFound csv_file], [])
  | OpenFails e => ([MsgError e], [])
  | Content [] None => ([MsgEmptyOrMalformed], [])      (* StopIteration *)
  | Content [] (Some IndexError) => ([MsgEmptyOrMalformed], [])
  | Content [] (Some e) => ([MsgError e], [])
  | Content (first_row :: rest) failure =>
      match nth_error first_row 1 with
      | None => ([MsgEmptyOrMalformed], [])             (* IndexError *)
      | Some cell =>
          let header :=
            if negb (looks_like_url cell)
            then ([MsgSkippingHeader first_row], [])
            else ([], cell_of first_row) in
          let channel_urls := (snd header ++ flat_map cell_of rest)%list in
          match failure with
          | Some e => ((fst header ++ [MsgError e])%list, [])
          | None =>
              ((fst header
                ++ [MsgLoaded (List.length channel_urls) csv_file])%list,
               channel_urls)
          end
      end
  end.

End Csv.

(** ** The start of the program: [authenticate] and [main] *)

(** The errors of the start: the [FileNotFoundError] that [main] tells
    apart, and the others. *)
Inductive startup_error : Type :=
| FileNotFoundError (msg : string)
| OtherError (e : exn).

(** The libraries [authenticate] calls, over the types [C] of the
    credentials, [F] of the authorization flow and [Y] of the client:
    [creds.valid], [creds.expired], the truth of [creds.refresh_token],
    [creds.refresh(Request())] (the credentials after it),
    [InstalledAppFlow.from_client_secrets_file], [flow.run_local_server]
    and [build]. *)
Record GoogleAuth (C F Y : Type) : Type := {
  valid : C -> bool;
  expired : C -> bool;
  refresh_token : C -> bool;
  refresh : C -> C + startup_error;
  from_client_secrets_file : string -> F + startup_error;
  run_local_server : F -> C + startup_error;
  build : C -> Y + startup_error
}.

Arguments valid {C F Y} _ _.
Arguments expired {C F Y} _ _.
Arguments refresh_token {C F Y} _ _.
Arguments refresh {C F Y} _ _.
Arguments from_client_secrets_file {C F Y} _ _.
Arguments run_local_server {C F Y} _ _.
Arguments build {C F Y} _ _.

(** The two files: [token.pickle] (absent, or what [pickle.load] gives of
    it), the credentials file (there or not), and what writing the token
    does: nothing but the writing ([None]), or an error [e] of [open] or of
    [pickle.dump] that leaves the file as [torn_token] tells. *)
Record Disk (C : Type) : Type := {
  token : option (C + startup_error);
  credentials_present : bool;
  write_error : option startup_error;
  torn_token : option (C + startup_error)
}.

Arguments token {C} _.
Arguments credentials_present {C} _.
Arguments write_error {C} _.
Arguments torn_token {C} _.

(** The disk with another token file. *)
Definition with_token {C} (d : Disk C) (t : option (C + startup_error))
  : Disk C :=
  {| token := t;
     credentials_present := credentials_present d;
     write_error := write_error d;
     torn_token := torn_token d |}.

Inductive auth_event : Type :=
| TokenRefreshed
| BrowserFlow
| TokenSaved
| PrintAuthenticated.

Record AuthOut (C Y : Type) : Type := {
  client : Y + startup_error;
  disk : Disk C;
  did : list auth_event
}.

Arguments client {C Y} _.
Arguments disk {C Y} _.
Arguments did {C Y} _.

Section Authenticate.

Context {C F Y : Type}.
Variable google : GoogleAuth C F Y.

(** The branch [else] of [authenticate]: the credentials file, then the
    flow in the browser. *)
Definition interactive_flow (credentials_file : string) (d : Disk C)
  : (C + startup_error) * list auth_event :=
  if negb (credentials_present d) then
    (inr (FileNotFoundError
            ("Credentials file '" ++ credentials_file ++ "' not found. "
             ++ "Download it from Google Cloud Console.")%string), [])
  else
    match from_client_secrets_file google credentials_file with
    | inr e => (inr e, [])
    | inl flow =>
        match run_local_server google flow with
        | inr e => (inr e, [BrowserFlow])
        | inl creds => (inl creds, [BrowserFlow])
        end
    end.

(** New credentials, when the ones of the token are missing or not valid:
    [if creds and creds.expired and creds.refresh_token: creds.refresh(...)
     else: ...]. *)
Definition renew (credentials_file : string) (d : Disk C) (creds : option C)
  : (C + startup_error) * list auth_event :=
  match creds with
  | Some c =>
      if expired google c && refresh_token google c
      then (refresh google c, [TokenRefreshed])
      else interactive_flow credentials_file d
  | None => interactive_flow credentials_file d
  end.

(** [build(...)] and the last line. *)
Definition build_client (creds : C) (d : Disk C) (done : list auth_event)
  : AuthOut C Y :=
  match build google creds with
  | inl y =>
      {| client := inl y; disk := d;
         did := (done ++ [PrintAuthenticated])%list |}
  | inr e => {| client := inr e; disk := d; did := done |}
  end.

(** The body of [if not creds or not creds.valid:] and what follows it:
    new credentials, saved in the token file, then the client. *)
Definition renew_and_build (credentials_file : string) (d : Disk C)
    (creds : option C) : AuthOut C Y :=
  match renew credentials_file d creds with
  | (inr e, done) => {| client := inr e; disk := d; did := done |}
  | (inl c, done) =>
      match write_error d with
      | Some e =>
          {| client := inr e; disk := with_token d (torn_token d);
             did := done |}
      | None =>
          build_client c (with_token d (Some (inl c)))
                       (done ++ [TokenSaved])%list
      end
  end.

(** [authenticate] *)
Definition authenticate (credentials_file : string) (d : Disk C)
  : AuthOut C Y :=
  match token d with
  | Some (inr e) => {| client := inr e; disk := d; did := [] |}
  | Some (inl creds) =>
      if valid google creds
      then build_client creds d []
      else renew_and_build credentials_file d (Some creds)
  | None => renew_and_build credentials_file d None
  end.

End Authenticate.

(** What [main] does, in order: the lines of the loading, the usage, the
    steps of [authenticate], the events of the run, the setup instructions
    after a [FileNotFoundError], the line of another error. *)
Inductive main_event : Type :=
| Loading (m : Csv.message)
| PrintUsage
| Authenticating (a : auth_event)
| Running (e : event)
| PrintSetupInstructions (msg : string)
| PrintUnexpectedError (e : exn).

Section Main.

Context {S C F : Type}.
Variable google : GoogleAuth C F (YouTube S).
Variable urlparse_error : string -> option string.

(** [main]: the events, the disk and the state of the service after it. *)
Definition main (f : Csv.file) (d : Disk C) (s : S)
  : list main_event * Disk C * S :=
  let csv_filename := "subscriptions.csv" in
  let (lines, channel_urls) := Csv.load_urls_from_csv csv_filename f in
  let loading := map Loading lines in
  match channel_urls with
  | [] => ((loading ++ [PrintUsage])%list, d, s)
  | _ :: _ =>
      let a := authenticate google "credentials.json" d in
      let authenticating := map Authenticating (did a) in
      match client a with
      | inr (FileNotFoundError msg) =>
          ((loading ++ authenticating ++ [PrintSetupInstructions msg])%list,
           disk a, s)
      | inr (OtherError e) =>
          ((loading ++ authenticating ++ [PrintUnexpectedError e])%list,
           disk a, s)
      | inl youtube =>
          let run := bulk_subscribe youtube urlparse_error channel_urls 1 s in
          ((loading ++ authenticating ++ map Running (evs run)
            ++ match res run with
               | Ok _ => []
               | Raise e => [PrintUnexpectedError e]
               end)%list,
           disk a, st run)
      end
  end.

End Main.

(** ** A start to run the program on *)

Module DemoStart.

(** Credentials that are valid, that have expired and can be refreshed, or
    that have been revoked. *)
Inductive creds : Type := Fresh | Stale | Revoked.

Definition google : GoogleAuth creds unit (YouTube (list string)) := {|
  valid c := match c with Fresh => true | _ => false end;
  expired c := match c with Stale => true | _ => false end;
  refresh_token c := match c with Stale => true | _ => false end;
  refresh _ := inl Fresh;
  from_client_secrets_file _ := inl tt;
  run_local_server _ := inl Fresh;
  build _ := inl Demo.account
|}.

Definition disk_with (t : option (creds + startup_error)) (present : bool)
  : Disk creds :=
  {| token := t; credentials_present := present;
     write_error := None; torn_token := None |}.

(** [urlparse] on the text [http://[::1/channel/UC1], whose host opens a
    bracket that it does not close: the library raises [ValueError]
    ("Invalid IPv6 URL").  The other texts are not looked at here. *)
Definition urlparse_brackets : string -> option string :=
  fun url =>
    if String.eqb url "http://[::1/channel/UC1"
    then Some "Invalid IPv6 URL"
    else None.

(** A service whose creation is refused with a body that lists no error. *)
Definition empty_errors : YouTube unit := {|
  search_list _ s := (Ok [], s);
  channels_list _ s := (Ok [], s);
  subscriptions_list _ s := (Ok [], s);
  subscriptions_insert _ s :=
    (Raise (HttpError (Some (JObj [("error", JObj [("errors", JArr [])])]))),
     s)
|}.

(** A sheet with a header, a row with spaces around its URL, a row with
    one cell, a row with an empty second cell and a row with a handle. *)
Definition sheet : Csv.file :=
  Csv.Content
    [["Channel"; "Link"];
     ["First"; "  https://www.youtube.com/channel/UCabc123 "];
     ["Second"];
     ["Third"; "   "];
     ["Fourth"; "https://www.youtube.com/@someuser"]]
    None.

End DemoStart.

(** * Properties *)

Example split_ex1 :
  PyStr.split "channel/" "https://www.youtube.com/channel/UCabc?x=1"
  = ["https://www.youtube.com/"; "UCabc?x=1"].
Proof. reflexivity. Qed.

Example split_ex2 : PyStr.split "ab" "abxabab" = [""; "x"; ""; ""].
Proof. reflexivity. Qed.

Example split_ex3 : PyStr.split "@" "no marker" = ["no marker"].
Proof. reflexivity. Qed.

Example strip_ex : PyStr.strip "  a b
 " = "a b".
Proof. reflexivity. Qed.

(** ** Facts on the string operations *)

Module PyStrFacts.

Lemma append_empty_r (s : string) : (s ++ "")%string = s.
Proof. induction s as [|c s IH]; simpl; [reflexivity | now rewrite IH]. Qed.

Lemma append_assoc (a b c : string) :
  ((a ++ b) ++ c)%string = (a ++ (b ++ c))%string.
Proof. induction a as [|x a IH]; simpl; [reflexivity | now rewrite IH]. Qed.

Lemma append_length (a b : string) :
  String.length (a ++ b) = String.length a + String.length b.
Proof. induction a as [|x a IH]; simpl; [reflexivity | now rewrite IH]. Qed.

Lemma startswith_append (p t : string) : startswith p (p ++ t) = true.
Proof.
  induction p as [|a p IH]; simpl; [reflexivity|].
  now rewrite Ascii.eqb_refl.
Qed.

Lemma startswith_inv (p s : string) :
  startswith p s = true -> exists t, s = (p ++ t)%string.
Proof.
  revert s; induction p as [|a p IH]; intros s H; simpl in *.
  - now exists s.
  - destruct s as [|b s]; [discriminate|].
    destruct (Ascii.eqb a b) eqn:E; [|discriminate].
    apply Ascii.eqb_eq in E; subst b.
    destruct (IH _ H) as [t ->]. now exists t.
Qed.

(** A separator that starts a prefix of a text starts the text. *)
Lemma startswith_prefix (p x y : string) :
  startswith p (x ++ y) = false -> startswith p x = false.
Proof.
  intros H. destruct (startswith p x) eqn:E; [|reflexivity].
  apply startswith_inv in E as [t ->].
  now rewrite append_assoc, startswith_append in H.
Qed.

Lemma contains_empty (sep : string) :
  sep <> EmptyString -> contains sep "" = false.
Proof. destruct sep; [congruence | reflexivity]. Qed.

Lemma contains_startswith (sep s : string) :
  startswith sep s = true -> contains sep s = true.
Proof. intros H. destruct s; simpl in *; now rewrite H. Qed.

Lemma split_from_nonempty (sep : string) (s : string) :
  forall k, split_from sep k s <> [].
Proof.
  induction s as [|c s IH]; intros k; cbn [split_from]; [discriminate|].
  destruct k; [|apply IH].
  destruct (startswith sep (String c s)); [discriminate|].
  destruct (split_from sep 0 s); discriminate.
Qed.

Lemma split_nonempty (sep s : string) : split sep s <> [].
Proof. apply split_from_nonempty. Qed.

Lemma split_from_skip (sep p t : string) :
  split_from sep (String.length p) (p ++ t) = split_from sep 0 t.
Proof. induction p as [|a p IH]; simpl; [reflexivity | exact IH]. Qed.

Lemma split_empty (sep : string) : split sep "" = [""].
Proof. reflexivity. Qed.

(** The text starts with the separator: an empty piece, then the pieces of
    what follows the separator. *)
Lemma split_match (sep t : string) :
  sep <> EmptyString -> split sep (sep ++ t) = "" :: split sep t.
Proof.
  intros Hsep. destruct sep as [|a sep]; [congruence|].
  unfold split. cbn [append split_from].
  change (String a (sep ++ t)) with (String a sep ++ t)%string.
  rewrite startswith_append.
  replace (String.length (String a sep) - 1) with (String.length sep)
    by (simpl; lia).
  now rewrite split_from_skip.
Qed.

(** The text does not start with the separator: its first character joins
    the first piece of the rest. *)
Lemma split_nomatch (sep : string) (c : ascii) (s : string) :
  startswith sep (String c s) = false ->
  split sep (String c s) =
  match split sep s with
  | p :: ps => String c p :: ps
  | [] => [String c ""]
  end.
Proof. intros H. unfold split. cbn [split_from]. now rewrite H. Qed.

Lemma join_cons (sep p : string) (ps : list string) :
  join sep (p :: ps) =
  (p ++ match ps with [] => "" | _ :: _ => sep ++ join sep ps end)%string.
Proof. destruct ps; simpl; [now rewrite append_empty_r | reflexivity]. Qed.

(** Splitting loses nothing, and no piece holds the separator. *)
Lemma split_spec (sep : string) :
  sep <> EmptyString ->
  forall n s, String.length s <= n ->
    join sep (split sep s) = s
    /\ Forall (fun p => contains sep p = false) (split sep s).
Proof.
  intros Hsep. induction n as [|n IH]; intros s Hn.
  - destruct s; [|simpl in Hn; lia].
    split; [reflexivity|]. constructor; [now apply contains_empty | constructor].
  - destruct s as [|c s].
    { split; [reflexivity|].
      constructor; [now apply contains_empty | constructor]. }
    destruct (startswith sep (String c s)) eqn:E.
    + destruct (startswith_inv _ _ E) as [t Ht]. rewrite Ht.
      rewrite split_match by assumption.
      assert (Hlen : String.length t <= n).
      { apply (f_equal String.length) in Ht. rewrite append_length in Ht.
        simpl in Ht, Hn. destruct sep; [congruence|]. simpl in Ht. lia. }
      destruct (IH t Hlen) as [Hj Hf]. split.
      * rewrite join_cons. destruct (split sep t) eqn:Es.
        { now apply split_nonempty in Es. }
        now rewrite Hj.
      * constructor; [now apply contains_empty | exact Hf].
    + rewrite split_nomatch by assumption.
      assert (Hlen : String.length s <= n) by (simpl in Hn; lia).
      destruct (IH s Hlen) as [Hj Hf].
      destruct (split sep s) as [|p ps] eqn:Es.
      { now apply split_nonempty in Es. }
      split.
      * rewrite join_cons. rewrite join_cons in Hj. simpl. now rewrite Hj.
      * apply Forall_cons_iff in Hf as [Hp Hps]. constructor; [|exact Hps].
        cbn [contains]. rewrite Hp, orb_false_r.
        rewrite join_cons in Hj. rewrite <- Hj in E.
        change (String c (p ++ ?x)) with (String c p ++ x)%string in E.
        exact (startswith_prefix _ _ _ E).
Qed.

Lemma join_split (sep s : string) :
  sep <> EmptyString -> join sep (split sep s) = s.
Proof. intros H. exact (proj1 (split_spec sep H _ s (le_n _))). Qed.

Lemma split_pieces (sep s : string) :
  sep <> EmptyString -> Forall (fun p => contains sep p = false) (split sep s).
Proof. intros H. exact (proj2 (split_spec sep H _ s (le_n _))). Qed.

(** [s.split(sep)[0]] is the text up to the first separator. *)
Lemma first_piece_spec (sep s : string) :
  sep <> EmptyString ->
  exists rest,
    s = (first_piece (split sep s) ++ rest)%string
    /\ contains sep (first_piece (split sep s)) = false
    /\ (rest = "" \/ startswith sep rest = true).
Proof.
  intros Hsep.
  pose proof (join_split sep s Hsep) as Hj.
  pose proof (split_pieces sep s Hsep) as Hf.
  destruct (split sep s) as [|p ps] eqn:E.
  { now apply split_nonempty in E. }
  rewrite join_cons in Hj. apply Forall_cons_iff in Hf as [Hp _].
  eexists; split; [symmetry; exact Hj|]. split; [exact Hp|].
  destruct ps; [now left | right; apply startswith_append].
Qed.

Lemma join_last (sep : string) (l : list string) :
  (2 <= List.length l)%nat ->
  join sep l =
  (join sep (removelast l) ++ sep ++ List.last l "")%string.
Proof.
  induction l as [|p l IH]; intros H; [simpl in H; lia|].
  destruct l as [|q l]; [simpl in H; lia|].
  destruct l as [|r l].
  - reflexivity.
  - change (removelast (p :: q :: r :: l)) with (p :: removelast (q :: r :: l)).
    change (List.last (p :: q :: r :: l) "") with (List.last (q :: r :: l) "").
    rewrite (join_cons sep p (q :: r :: l)).
    rewrite IH by (simpl; lia).
    rewrite join_cons.
    destruct (removelast (q :: r :: l)) eqn:E.
    + discriminate E.
    + rewrite <- E. now rewrite !append_assoc.
Qed.

(** [s.split(sep)[-1]] is the text after a separator and holds no other. *)
Lemma last_piece_spec (sep s : string) :
  sep <> EmptyString -> contains sep s = true ->
  exists before,
    s = (before ++ sep ++ last_piece (split sep s))%string
    /\ contains sep (last_piece (split sep s)) = false.
Proof.
  intros Hsep Hc.
  pose proof (join_split sep s Hsep) as Hj.
  pose proof (split_pieces sep s Hsep) as Hf.
  assert (Hlen : (2 <= List.length (split sep s))%nat).
  { destruct (split sep s) as [|p [|q l]] eqn:E; simpl; try lia.
    - now apply split_nonempty in E.
    - simpl in Hj. subst p. apply Forall_cons_iff in Hf as [Hp _].
      congruence. }
  rewrite (join_last sep _ Hlen) in Hj.
  eexists; split; [symmetry; exact Hj|].
  unfold last_piece. rewrite Forall_forall in Hf. apply Hf.
  destruct (split sep s) as [|p l] eqn:E; [simpl in Hlen; lia|].
  rewrite <- E.
  destruct (@exists_last _ (split sep s)) as [l' [x Hx]]; [congruence|].
  rewrite Hx, last_last. apply in_or_app. right. now left.
Qed.

(** A text without the separator is one piece. *)
Lemma split_absent (sep s : string) :
  sep <> EmptyString -> contains sep s = false -> split sep s = [s].
Proof.
  intros Hsep. induction s as [|c s IH]; intros H; [reflexivity|].
  cbn [contains] in H. apply orb_false_iff in H as [H1 H2].
  rewrite split_nomatch by assumption. rewrite (IH H2). reflexivity.
Qed.

End PyStrFacts.

(** ** The resolver *)

Section Resolver.

Context {S : Type}.
Variable youtube : YouTube S.
Variable urlparse_error : string -> option string.

Lemma segment_after_split (marker url : string) :
  marker <> "" -> contains marker url = true ->
  segment_after marker url
    (first_piece (split "?" (last_piece (split marker url)))).
Proof.
  intros Hm Hc.
  destruct (PyStrFacts.last_piece_spec marker url Hm Hc) as [before [Hu Hl]].
  destruct (PyStrFacts.first_piece_spec "?" (last_piece (split marker url)))
    as [rest [Ht [Hq Hr]]]; [discriminate|].
  exists before, rest. rewrite <- Ht. auto.
Qed.

(** C3: a reference that holds [channel/] (and that [urlparse] accepts) is
    resolved with no request, no output and no change of the service, to the
    text between [channel/] (its last occurrence) and the first [?] after it,
    or the end of the reference. *)
Theorem channel_reference_resolved_locally (url : string) (s : S) :
  urlparse_error url = None ->
  contains "channel/" url = true ->
  exists id,
    segment_after "channel/" url id
    /\ extract_channel_id youtube urlparse_error url s
       = {| res := Ok id; st := s; evs := [] |}.
Proof.
  intros Hp Hc.
  exists (first_piece (split "?" (last_piece (split "channel/" url)))).
  split.
  - apply segment_after_split; [discriminate | exact Hc].
  - unfold extract_channel_id, urlparse, bind.
    rewrite Hp, Hc. reflexivity.
Qed.

Lemma in_requests (c : call) (l : list event) :
  In (Request c) l <-> In c (requests l).
Proof.
  induction l as [|e l IH]; simpl; [tauto|].
  destruct e as [c'| |]; simpl; rewrite <- IH;
    (split; [intros [H|H]; [inversion H; auto || discriminate | auto]
            | intros H; intuition congruence]).
Qed.

Lemma requests_app (l l' : list event) :
  requests (l ++ l') = requests l ++ requests l'.
Proof.
  induction l as [|e l IH]; simpl; [reflexivity|].
  destruct e; simpl; now rewrite IH.
Qed.

(** [resolve_custom_url] sends the search, once, and nothing else. *)
Lemma resolve_custom_url_requests (url : string) (s : S) :
  requests (evs (resolve_custom_url youtube url s)) =
  [SearchList
     (if contains "@" url
      then ("@" ++ first_piece (split "?" (last_piece (split "@" url))))%string
      else first_piece (split "?" (last_piece (split "c/" url))))].
Proof.
  unfold resolve_custom_url, try_except, bind, execute.
  destruct (search_list youtube _ s) as [[items|e] s']; cbn.
  - destruct items; reflexivity.
  - destruct e; reflexivity.
Qed.

(** C4: for a reference that holds [@], the search of [resolve_custom_url]
    is sent with the query [@] followed by the text between the last [@] and
    the first [?] after it (or the end); it is the only request.  Through
    [extract_channel_id] no search is sent with another query, and this one
    is sent when [urlparse] accepts the reference and [channel/] is not in
    it. *)
Theorem handle_search_query (url : string) (s : S) :
  contains "@" url = true ->
  exists handle,
    segment_after "@" url handle
    /\ requests (evs (resolve_custom_url youtube url s))
       = [SearchList ("@" ++ handle)]
    /\ (forall q,
          In (Request (SearchList q))
             (evs (extract_channel_id youtube urlparse_error url s)) ->
          q = ("@" ++ handle)%string)
    /\ (urlparse_error url = None -> contains "channel/" url = false ->
        requests (evs (extract_channel_id youtube urlparse_error url s))
        = [SearchList ("@" ++ handle)]).
Proof.
  intros Hat.
  exists (first_piece (split "?" (last_piece (split "@" url)))).
  pose proof (resolve_custom_url_requests url s) as Hr. rewrite Hat in Hr.
  split; [apply segment_after_split; [discriminate | exact Hat]|].
  split; [exact Hr|].
  assert (He : urlparse_error url = None -> contains "channel/" url = false ->
               evs (extract_channel_id youtube urlparse_error url s)
               = evs (resolve_custom_url youtube url s)).
  { intros Hp Hc. unfold extract_channel_id, urlparse, bind.
    rewrite Hp, Hc, Hat, orb_true_r. reflexivity. }
  split.
  - intros q Hin.
    destruct (urlparse_error url) as [msg|] eqn:Hp.
    { unfold extract_channel_id, urlparse, bind in Hin.
      rewrite Hp in Hin. cbn in Hin. contradiction. }
    destruct (contains "channel/" url) eqn:Hc.
    { unfold extract_channel_id, urlparse, bind in Hin.
      rewrite Hp, Hc in Hin. cbn in Hin. contradiction. }
    rewrite (He eq_refl eq_refl) in Hin.
    apply in_requests in Hin. rewrite Hr in Hin.
    destruct Hin as [Hq|[]]. now inversion Hq.
  - intros Hp Hc. now rewrite (He Hp Hc).
Qed.

(** C5: a reference with none of [channel/], [c/], [@] and [user/] is
    refused with a [ValueError], with no request, no output and no change of
    the service; the error is the one of [extract_channel_id], "Unable to
    parse channel URL", unless [urlparse] has refused the text before. *)
Theorem unknown_reference_rejected (url : string) (s : S) :
  contains "channel/" url = false ->
  contains "c/" url = false ->
  contains "@" url = false ->
  contains "user/" url = false ->
  exists msg,
    extract_channel_id youtube urlparse_error url s
    = {| res := Raise (ValueError msg); st := s; evs := [] |}
    /\ (urlparse_error url = None ->
        msg = ("Unable to parse channel URL: " ++ url)%string).
Proof.
  intros Hc Hcu Hat Hu.
  unfold extract_channel_id, urlparse, bind.
  destruct (urlparse_error url) as [msg|] eqn:Hp.
  - exists msg. split; [reflexivity | discriminate].
  - rewrite Hc, Hcu, Hat, Hu. cbn. eexists; split; reflexivity.
Qed.

End Resolver.

Example resolve_channel_url :
  extract_channel_id Demo.account Demo.lenient
    "https://www.youtube.com/channel/UCabc123?view=1" []
  = {| res := Ok "UCabc123"; st := []; evs := [] |}.
Proof. reflexivity. Qed.

Example resolve_handle_url :
  extract_channel_id Demo.account Demo.lenient
    "https://www.youtube.com/@someuser?si=1" []
  = {| res := Ok "UCsearched"; st := [];
       evs := [Request (SearchList "@someuser")] |}.
Proof. reflexivity. Qed.

Lemma channel_reference_resolved_locally_witness :
  exists id,
    segment_after "channel/" "https://www.youtube.com/channel/UCabc123?view=1" id
    /\ extract_channel_id Demo.account Demo.lenient
         "https://www.youtube.com/channel/UCabc123?view=1" []
       = {| res := Ok id; st := []; evs := [] |}.
Proof.
  apply (channel_reference_resolved_locally Demo.account Demo.lenient);
    reflexivity.
Defined.

(** C3 as the claim has it fails: a reference that holds [channel/] and
    that [urlparse] refuses is not resolved: the [ValueError] of [urlparse]
    comes before the test of [channel/]. *)
Lemma channel_reference_not_always_resolved :
  ~ (forall (S : Type) (yt : YouTube S) (up : string -> option string)
            (url : string) (s : S),
       contains "channel/" url = true ->
       exists id,
         segment_after "channel/" url id
         /\ extract_channel_id yt up url s
            = {| res := Ok id; st := s; evs := [] |}).
Proof.
  intros H.
  destruct (H (list string) Demo.account DemoStart.urlparse_brackets
              "http://[::1/channel/UC1" [] eq_refl) as [id [_ Hx]].
  vm_compute in Hx. discriminate Hx.
Qed.

Example bracket_url_refused :
  extract_channel_id Demo.account DemoStart.urlparse_brackets
    "http://[::1/channel/UC1" []
  = {| res := Raise (ValueError "Invalid IPv6 URL"); st := []; evs := [] |}.
Proof. reflexivity. Qed.

Lemma handle_search_query_witness :
  exists handle,
    segment_after "@" "https://www.youtube.com/@someuser?si=1" handle
    /\ requests (evs (resolve_custom_url Demo.account
                        "https://www.youtube.com/@someuser?si=1" []))
       = [SearchList ("@" ++ handle)].
Proof.
  destruct (handle_search_query Demo.account Demo.lenient
              "https://www.youtube.com/@someuser?si=1" [] eq_refl)
    as [handle [Hs [Hq _]]].
  exists handle. split; assumption.
Defined.

Lemma unknown_reference_rejected_witness :
  exists msg,
    extract_channel_id Demo.account Demo.lenient "not-a-url" []
    = {| res := Raise (ValueError msg); st := []; evs := [] |}
    /\ (Demo.lenient "not-a-url" = None ->
        msg = ("Unable to parse channel URL: " ++ "not-a-url")%string).
Proof.
  apply (unknown_reference_rejected Demo.account Demo.lenient);
    reflexivity.
Defined.

(** ** The subscription to one channel *)

Section Subscription.

Context {S : Type}.
Variable youtube : YouTube S.

(** The function and its table agree. *)
Lemma subscribe_to_channel_table (c : string) (s : S) :
  subscribe_to_channel youtube c s = subscribe_table youtube c s.
Proof.
  unfold subscribe_to_channel, subscribe_table, creation,
    try_except, bind, execute, except_HttpError.
  destruct (subscriptions_list youtube c s) as [[[|x l]|e] s1]; cbn.
  - destruct (subscriptions_insert youtube c s1) as [[[]|e] s2]; cbn;
      [reflexivity|].
    destruct e; cbn; try reflexivity.
    destruct (error_reason content) as [reason|x]; cbn; [|reflexivity].
    destruct (PyJson.eq_str reason "subscriptionDuplicate"); reflexivity.
  - reflexivity.
  - destruct e; cbn; try reflexivity.
    destruct (subscriptions_insert youtube c s1) as [[[]|e] s2]; cbn;
      [reflexivity|].
    destruct e; cbn; try reflexivity.
    destruct (error_reason content0) as [reason|x]; cbn; [|reflexivity].
    destruct (PyJson.eq_str reason "subscriptionDuplicate"); reflexivity.
Qed.

Lemma creation_sends (c : string) (s1 : S) :
  exists tail,
    evs (creation youtube c s1)
    = Request (SubscriptionsList c) :: Request (SubscriptionsInsert c) :: tail.
Proof.
  unfold creation.
  destruct (subscriptions_insert youtube c s1) as [[[]|e] s2];
    [eexists; reflexivity|].
  destruct e; try (eexists; reflexivity).
  destruct (error_reason content) as [reason|x]; [|eexists; reflexivity].
  destruct (PyJson.eq_str reason "subscriptionDuplicate");
    eexists; reflexivity.
Qed.

(** C6, as the code has it: an [HttpError] of the listing is dropped and
    the creation is requested next, the run being the one of a listing that
    answers no entry; an error of the listing that is not an [HttpError]
    leaves [subscribe_to_channel] at once, with no creation requested. *)
Theorem listing_error_handling (c : string) (s s1 : S) (e : exn) :
  subscriptions_list youtube c s = (Raise e, s1) ->
  (forall content, e = HttpError content ->
     (exists tail,
        evs (subscribe_to_channel youtube c s)
        = Request (SubscriptionsList c)
          :: Request (SubscriptionsInsert c) :: tail)
     /\ (forall s0, subscriptions_list youtube c s0 = (Ok [], s1) ->
           subscribe_to_channel youtube c s0 = subscribe_to_channel youtube c s))
  /\ ((forall content, e <> HttpError content) ->
      subscribe_to_channel youtube c s
      = {| res := Raise e; st := s1; evs := [Request (SubscriptionsList c)] |}).
Proof.
  intros Hl. rewrite subscribe_to_channel_table. unfold subscribe_table.
  rewrite Hl. split.
  - intros content ->. split; [apply creation_sends|].
    intros s0 H0. rewrite subscribe_to_channel_table. unfold subscribe_table.
    now rewrite H0.
  - intros Hne. destruct e; try reflexivity. now elim (Hne content).
Qed.

(** C7, as the code has it: when the creation is reached and fails, an
    [HttpError] whose body gives the reason [subscriptionDuplicate] makes the
    call answer [True] after "Already subscribed"; an [HttpError] whose body
    gives another reason makes it answer [False] after "Failed to subscribe"
    with that error; an error that is not an [HttpError] leaves the function
    as it is. *)
Theorem creation_failure_handling (c : string) (s s1 s2 : S) (e : exn) :
  (subscriptions_list youtube c s = (Ok [], s1)
   \/ exists content, subscriptions_list youtube c s
                      = (Raise (HttpError content), s1)) ->
  subscriptions_insert youtube c s1 = (Raise e, s2) ->
  let o := subscribe_to_channel youtube c s in
  let sent := [Request (SubscriptionsList c); Request (SubscriptionsInsert c)] in
  (reports_duplicate e = true ->
     o = {| res := Ok true; st := s2;
            evs := sent ++ [Print (MsgAlreadySubscribed c)] |}
     /\ outcome_of o = Some AlreadySubscribed)
  /\ (forall content reason,
        e = HttpError content -> error_reason content = Ok reason ->
        PyJson.eq_str reason "subscriptionDuplicate" = false ->
        o = {| res := Ok false; st := s2;
               evs := sent ++ [Print (MsgFailedToSubscribe c e)] |}
        /\ outcome_of o = Some (Failed e))
  /\ ((forall content, e <> HttpError content) ->
      o = {| res := Raise e; st := s2; evs := sent |}
      /\ outcome_of o = None).
Proof.
  intros Hl Hi o sent.
  assert (Ho : o = creation youtube c s1).
  { unfold o. rewrite subscribe_to_channel_table. unfold subscribe_table.
    destruct Hl as [Hl|[content Hl]]; now rewrite Hl. }
  unfold creation in Ho. rewrite Hi in Ho. fold sent in Ho.
  repeat split.
  - destruct e; try discriminate. cbn in H.
    destruct (error_reason content); [|discriminate].
    now rewrite H in Ho.
  - destruct e; try discriminate. cbn in H.
    destruct (error_reason content); [|discriminate].
    rewrite H in Ho. now rewrite Ho.
  - subst e. rewrite H0, H1 in Ho. exact Ho.
  - subst e. rewrite H0, H1 in Ho. now rewrite Ho.
  - destruct e; try exact Ho. now elim (H content).
  - destruct e; try (now rewrite Ho). now elim (H content).
Qed.

(** An [HttpError] of the creation whose body gives no reason that can be
    read (not JSON, or an empty list of errors) leaves the function with the
    error of the reading. *)
Lemma creation_failure_unreadable (c : string) (s s1 s2 : S)
    (content : option json) (x : exn) :
  subscriptions_list youtube c s = (Ok [], s1) ->
  subscriptions_insert youtube c s1 = (Raise (HttpError content), s2) ->
  error_reason content = Raise x ->
  res (subscribe_to_channel youtube c s) = Raise x.
Proof.
  intros Hl Hi Hr. rewrite subscribe_to_channel_table.
  unfold subscribe_table, creation. now rewrite Hl, Hi, Hr.
Qed.

End Subscription.

Lemma listing_error_handling_witness :
  subscriptions_list Demo.over_quota "UC1" tt
  = (Raise (HttpError (Demo.error_body "forbidden")), tt)
  /\ exists tail,
       evs (subscribe_to_channel Demo.over_quota "UC1" tt)
       = Request (SubscriptionsList "UC1")
         :: Request (SubscriptionsInsert "UC1") :: tail.
Proof.
  split; [reflexivity|].
  destruct (listing_error_handling Demo.over_quota "UC1" tt tt _ eq_refl)
    as [H _].
  exact (proj1 (H _ eq_refl)).
Defined.

(** C6 as the claim has it fails: a listing that times out is an error of
    the check, and no creation is requested after it. *)
Lemma listing_error_not_always_ignored :
  ~ (forall (S : Type) (yt : YouTube S) (c : string) (s s1 : S) (e : exn),
       subscriptions_list yt c s = (Raise e, s1) ->
       In (Request (SubscriptionsInsert c))
          (evs (subscribe_to_channel yt c s))).
Proof.
  intros H.
  specialize (H unit Demo.unreachable "UC1" tt tt
                (TransportError "timed out") eq_refl).
  cbn in H. destruct H as [H|[]]. discriminate H.
Qed.

Example listing_timeout_raises :
  subscribe_to_channel Demo.unreachable "UC1" tt
  = {| res := Raise (TransportError "timed out"); st := tt;
       evs := [Request (SubscriptionsList "UC1")] |}.
Proof. reflexivity. Qed.

Lemma creation_failure_handling_witness :
  outcome_of (subscribe_to_channel Demo.over_quota "UC1" tt)
  = Some (Failed (HttpError (Demo.error_body "quotaExceeded"))).
Proof.
  assert (Hl : subscriptions_list Demo.over_quota "UC1" tt = (Ok [], tt)
               \/ exists content,
                    subscriptions_list Demo.over_quota "UC1" tt
                    = (Raise (HttpError content), tt)).
  { right. eexists. reflexivity. }
  destruct (creation_failure_handling Demo.over_quota "UC1" tt tt tt
              (HttpError (Demo.error_body "quotaExceeded")) Hl eq_refl)
    as [_ [H _]].
  exact (proj2 (H _ (JStr "quotaExceeded") eq_refl eq_refl eq_refl)).
Defined.

(** C7 as the claim has it fails: a creation that loses the connection does
    not report a duplicate, and the call has no outcome [Failed]: it
    raises. *)
Lemma creation_failure_not_always_failed :
  ~ (forall (S : Type) (yt : YouTube S) (c : string) (s s1 s2 : S) (e : exn),
       subscriptions_list yt c s = (Ok [], s1) ->
       subscriptions_insert yt c s1 = (Raise e, s2) ->
       reports_duplicate e = false ->
       exists reason,
         outcome_of (subscribe_to_channel yt c s) = Some (Failed reason)).
Proof.
  intros H.
  destruct (H unit Demo.drops_insert "UC1" tt tt tt
              (TransportError "connection reset") eq_refl eq_refl eq_refl)
    as [reason Hr].
  cbn in Hr. discriminate Hr.
Qed.

Example creation_reset_raises :
  subscribe_to_channel Demo.drops_insert "UC1" tt
  = {| res := Raise (TransportError "connection reset"); st := tt;
       evs := [Request (SubscriptionsList "UC1");
               Request (SubscriptionsInsert "UC1")] |}.
Proof. reflexivity. Qed.

(** ** Subscribing twice *)

Section Idempotence.

Context {S : Type}.
Variable youtube : YouTube S.
Variable subscribed : string -> S -> Prop.
Hypothesis service : keeps_subscriptions youtube subscribed.

(** A call that answers [True] leaves the account subscribed. *)
Lemma success_is_subscribed (c : string) (s : S) :
  res (subscribe_to_channel youtube c s) = Ok true ->
  subscribed c (st (subscribe_to_channel youtube c s)).
Proof.
  rewrite subscribe_to_channel_table. unfold subscribe_table.
  assert (Hc : forall s1, res (creation youtube c s1) = Ok true ->
                          subscribed c (st (creation youtube c s1))).
  { intros s1. unfold creation.
    destruct (subscriptions_insert youtube c s1) as [[[]|e] s2] eqn:Hi; cbn.
    - intros _. exact (created_is_subscribed _ _ service _ _ _ Hi).
    - pose proof (duplicate_is_subscribed _ _ service _ _ _ _ Hi) as Hd.
      destruct e; cbn in *; try discriminate.
      destruct (error_reason content) as [reason|x]; cbn; [|discriminate].
      destruct (PyJson.eq_str reason "subscriptionDuplicate"); cbn;
        [auto | discriminate]. }
  destruct (subscriptions_list youtube c s) as [[[|x l]|e] s1] eqn:Hl; cbn.
  - apply Hc.
  - intros _. exact (listed_is_subscribed _ _ service _ _ _ _ _ Hl).
  - destruct e; cbn; try discriminate. apply Hc.
Qed.

(** For an account that is subscribed, the call answers [True] after
    "Already subscribed". *)
Lemma subscribed_is_already (c : string) (s : S) :
  subscribed c s ->
  outcome_of (subscribe_to_channel youtube c s) = Some AlreadySubscribed.
Proof.
  intros Hs. rewrite subscribe_to_channel_table. unfold subscribe_table.
  assert (Hc : forall s1, subscribed c s1 ->
                          outcome_of (creation youtube c s1)
                          = Some AlreadySubscribed).
  { intros s1 H1. unfold creation.
    destruct (subscriptions_insert youtube c s1) as [ri s2] eqn:Hi.
    destruct (creation_is_duplicate _ _ service _ _ _ _ H1 Hi)
      as [e [-> Hd]].
    destruct e; cbn in Hd; try discriminate.
    destruct (error_reason content) as [reason|x]; [|discriminate].
    rewrite Hd. reflexivity. }
  destruct (subscriptions_list youtube c s) as [[[|x l]|e] s1] eqn:Hl.
  - apply Hc. exact (listing_keeps _ _ service _ _ _ _ Hs Hl).
  - reflexivity.
  - destruct (listing_fails_over_http _ _ service _ _ _ _ Hs Hl)
      as [content ->].
    apply Hc. exact (listing_keeps _ _ service _ _ _ _ Hs Hl).
Qed.

(** A failure that is reported never comes from a duplicate. *)
Lemma failed_is_not_duplicate {T : Type} (yt : YouTube T) (c : string)
    (s : T) (e : exn) :
  outcome_of (subscribe_to_channel yt c s) = Some (Failed e) ->
  reports_duplicate e = false.
Proof.
  rewrite subscribe_to_channel_table. unfold subscribe_table.
  assert (Hc : forall s1, outcome_of (creation yt c s1) = Some (Failed e) ->
                          reports_duplicate e = false).
  { intros s1. unfold creation.
    destruct (subscriptions_insert yt c s1) as [[[]|x] s2]; cbn;
      [discriminate|].
    destruct x; cbn; try discriminate.
    destruct (error_reason content) as [reason|x] eqn:Hr; cbn;
      [|discriminate].
    destruct (PyJson.eq_str reason "subscriptionDuplicate") eqn:Hq; cbn;
      [discriminate|].
    intros H. inversion H; subst. cbn. now rewrite Hr. }
  destruct (subscriptions_list yt c s) as [[[|x l]|x] s1]; cbn.
  - apply Hc.
  - discriminate.
  - destruct x; cbn; try discriminate. apply Hc.
Qed.

(** C8: on a service that keeps its subscriptions, two calls in a row for
    one channel: when the first answers [True] (created or already
    subscribed) the second has the outcome [AlreadySubscribed]; the two are
    never both [Created]; and neither reports a failure for an error that
    tells a duplicate. *)
Theorem subscribe_twice (c : string) (s : S) :
  let first := subscribe_to_channel youtube c s in
  let second := subscribe_to_channel youtube c (st first) in
  (res first = Ok true -> outcome_of second = Some AlreadySubscribed)
  /\ ~ (outcome_of first = Some Created /\ outcome_of second = Some Created)
  /\ (forall e, outcome_of first = Some (Failed e)
                \/ outcome_of second = Some (Failed e) ->
                reports_duplicate e = false).
Proof.
  intros first second.
  assert (H1 : res first = Ok true ->
               outcome_of second = Some AlreadySubscribed).
  { intros Hr. apply subscribed_is_already.
    now apply success_is_subscribed. }
  split; [exact H1|]. split.
  - intros [Hf Hs].
    assert (Hr : res first = Ok true).
    { unfold outcome_of in Hf. destruct (res first) as [[|]|]; auto.
      - destruct (rev (evs first)) as [|[| [] |] ?]; discriminate.
      - discriminate. }
    rewrite (H1 Hr) in Hs. discriminate.
  - intros e [H|H]; exact (failed_is_not_duplicate _ _ _ _ H).
Qed.

End Idempotence.

Lemma account_keeps_subscriptions :
  keeps_subscriptions Demo.account
    (fun c s => existsb (String.eqb c) s = true).
Proof.
  constructor; cbn.
  - intros c s s' H. destruct (existsb (String.eqb c) s); inversion H; subst.
    cbn. now rewrite String.eqb_refl.
  - intros c s x l s' H.
    destruct (existsb (String.eqb c) s) eqn:E; inversion H; subst; exact E.
  - intros c s e s' H _.
    destruct (existsb (String.eqb c) s) eqn:E; inversion H; subst; exact E.
  - intros c s r s' Hs H. inversion H; subst; exact Hs.
  - intros c s e s' Hs H. rewrite Hs in H. discriminate H.
  - intros c s r s' Hs H. rewrite Hs in H. inversion H; subst.
    eexists; split; reflexivity.
Qed.

Lemma subscribe_twice_witness :
  outcome_of (subscribe_to_channel Demo.account "UC1" []) = Some Created
  /\ outcome_of
       (subscribe_to_channel Demo.account "UC1"
          (st (subscribe_to_channel Demo.account "UC1" [])))
     = Some AlreadySubscribed.
Proof.
  split; [reflexivity|].
  apply (subscribe_twice Demo.account _ account_keeps_subscriptions "UC1" []).
  reflexivity.
Defined.

(** ** The loop over the references *)

Section Orchestrator.

Context {S : Type}.
Variable youtube : YouTube S.
Variable urlparse_error : string -> option string.

Ltac inner_events :=
  cbn; repeat (constructor; try reflexivity).

Lemma extract_channel_id_inner (url : string) (s : S) :
  Forall (fun e => inner_event e = true)
         (evs (extract_channel_id youtube urlparse_error url s)).
Proof.
  unfold extract_channel_id, urlparse, resolve_custom_url,
    get_channel_id_by_username, try_except, bind, execute, except_HttpError.
  destruct (urlparse_error url); [inner_events|]. cbn.
  destruct (contains "channel/" url); [inner_events|].
  destruct (contains "c/" url || contains "@" url).
  - destruct (search_list youtube _ s) as [[[|x l]|e] s1];
      try destruct e; inner_events.
  - destruct (contains "user/" url); [|inner_events].
    destruct (channels_list youtube _ s) as [[[|x l]|e] s1];
      try destruct e; inner_events.
Qed.

Lemma subscribe_to_channel_inner (c : string) (s : S) :
  Forall (fun e => inner_event e = true)
         (evs (subscribe_to_channel youtube c s)).
Proof.
  rewrite subscribe_to_channel_table. unfold subscribe_table, creation.
  assert (Hc : forall s1,
             Forall (fun e => inner_event e = true)
                    (evs (creation youtube c s1))).
  { intros s1. unfold creation.
    destruct (subscriptions_insert youtube c s1) as [[[]|e] s2];
      [inner_events|].
    destruct e; try solve [inner_events].
    destruct (error_reason content) as [reason|x]; [|inner_events].
    destruct (PyJson.eq_str reason "subscriptionDuplicate"); inner_events. }
  destruct (subscriptions_list youtube c s) as [[[|x l]|e] s1].
  - apply Hc.
  - inner_events.
  - destruct e; try solve [inner_events]. apply Hc.
Qed.

Lemma attempt_inner (url : string) (s : S) :
  Forall (fun e => inner_event e = true)
         (evs (attempt youtube urlparse_error url s)).
Proof.
  unfold attempt, bind.
  pose proof (extract_channel_id_inner (strip url) s) as He.
  destruct (res (extract_channel_id youtube urlparse_error (strip url) s));
    cbn; [|exact He].
  apply Forall_app. split; [exact He | apply subscribe_to_channel_inner].
Qed.

Lemma bind_raise {A B} (m : M S A) (f : A -> M S B) (s : S) (e : exn) :
  res (m s) = Raise e ->
  bind m f s = {| res := Raise e; st := st (m s); evs := evs (m s) |}.
Proof. intros H. unfold bind. now rewrite H. Qed.

Lemma bind_ok {A B} (m : M S A) (f : A -> M S B) (s : S) (v : A) :
  res (m s) = Ok v ->
  bind m f s
  = {| res := res (f v (st (m s))); st := st (f v (st (m s)));
       evs := evs (m s) ++ evs (f v (st (m s))) |}.
Proof. intros H. unfold bind. now rewrite H. Qed.

Lemma bind_emit {B} (ev : event) (f : unit -> M S B) (s : S) :
  bind (emit ev) f s
  = {| res := res (f tt s); st := st (f tt s); evs := ev :: evs (f tt s) |}.
Proof. reflexivity. Qed.

Lemma bind_print {B} (m : message) (f : unit -> M S B) (s : S) :
  bind (print m) f s
  = {| res := res (f tt s); st := st (f tt s);
       evs := Print m :: evs (f tt s) |}.
Proof. reflexivity. Qed.

(** The [try] of the loop never raises: the result of the item is
    recorded, an error being printed and counted as a failure. *)
Lemma item_try_run (url : string) (c : counters) (s : S) :
  try_except
    (channel_id <- extract_channel_id youtube urlparse_error (strip url) ;;
     subscribed <- subscribe_to_channel youtube channel_id ;;
     if subscribed
     then ret {| successful := successful c + 1; failed := failed c |}
     else ret {| successful := successful c; failed := failed c + 1 |})
    (except_Exception (fun e =>
       print (MsgErrorProcessing url e) ;;
       ret {| successful := successful c; failed := failed c + 1 |})) s
  = let a := attempt youtube urlparse_error url s in
    {| res := Ok (record_result c (res a)); st := st a;
       evs := evs a
              ++ match res a with
                 | Raise e => [Print (MsgErrorProcessing url e)]
                 | Ok _ => []
                 end |}.
Proof.
  unfold attempt, record_result, try_except, bind, except_Exception,
    print, emit, ret.
  cbn [st res evs].
  destruct (extract_channel_id youtube urlparse_error (strip url) s)
    as [[id|e] s1 ev1]; cbn;
    try (destruct (subscribe_to_channel youtube id s1) as [[[|]|e] s2 ev2];
         cbn);
    rewrite ?app_nil_r, <- ?app_assoc; reflexivity.
Qed.

(** One turn of the loop: the item is tried and its result recorded; then,
    but after the last item, [time.sleep] sleeps or raises. *)
Lemma loop_body_sleep (n : nat) (d : Q) (i : nat) (url : string)
    (c : counters) (s : S) :
  loop_body youtube urlparse_error n d (i, url) c s =
  let a := attempt youtube urlparse_error url s in
  match (if (i <? n)%nat then time_sleep_error d else None) with
  | None =>
      {| res := Ok (record_result c (res a)); st := st a;
         evs := item_events n d i url a |}
  | Some e =>
      {| res := Raise e; st := st a;
         evs := Print (MsgProcessing i n url)
                :: evs a
                ++ match res a with
                   | Raise x => [Print (MsgErrorProcessing url x)]
                   | Ok _ => []
                   end |}
  end.
Proof.
  unfold loop_body. rewrite bind_print.
  pose proof (item_try_run url c s) as Ht. cbv zeta in Ht.
  erewrite bind_ok by (rewrite Ht; reflexivity).
  rewrite Ht. cbn [res st evs]. cbv zeta. unfold item_events, time_sleep.
  destruct (i <? n)%nat.
  - destruct (time_sleep_error d) as [e|].
    + rewrite (bind_raise _ _ _ e) by reflexivity. cbn [res st evs raise].
      now rewrite app_nil_r.
    + rewrite bind_emit. unfold ret. cbn [res st evs].
      now rewrite <- app_assoc.
  - unfold bind, ret. cbn [res st evs app].
    now rewrite <- app_assoc, !app_nil_r.
Qed.

(** One turn of the loop, when [time.sleep] accepts the delay: the item is
    tried, its result is recorded, whatever it is. *)
Lemma loop_body_run (n : nat) (d : Q) (i : nat) (url : string)
    (c : counters) (s : S) :
  time_sleep_error d = None ->
  loop_body youtube urlparse_error n d (i, url) c s =
  let a := attempt youtube urlparse_error url s in
  {| res := Ok (record_result c (res a)); st := st a;
     evs := item_events n d i url a |}.
Proof.
  intros Hd. rewrite loop_body_sleep, Hd.
  destruct (i <? n)%nat; reflexivity.
Qed.

(** One turn of the loop that is not the last, when [time.sleep] refuses
    the delay: the item is tried, then the loop is left. *)
Lemma loop_body_stops (n : nat) (d : Q) (i : nat) (url : string)
    (c : counters) (s : S) (e : exn) :
  time_sleep_error d = Some e -> (i <? n)%nat = true ->
  loop_body youtube urlparse_error n d (i, url) c s =
  let a := attempt youtube urlparse_error url s in
  {| res := Raise e;
     st := st a;
     evs := Print (MsgProcessing i n url)
            :: evs a
            ++ match res a with
               | Raise x => [Print (MsgErrorProcessing url x)]
               | Ok _ => []
               end |}.
Proof.
  intros Hd Hlt. rewrite loop_body_sleep, Hd, Hlt. reflexivity.
Qed.

Lemma for_each_loop (n : nat) (d : Q) :
  time_sleep_error d = None ->
  forall items c s,
    for_each items (loop_body youtube urlparse_error n d) c s
    = loop_run youtube urlparse_error n d items c s.
Proof.
  intros Hd. induction items as [|[i url] items IH]; intros c s;
    [reflexivity|].
  cbn [for_each loop_run]. unfold bind at 1.
  rewrite loop_body_run by exact Hd. cbn. now rewrite IH.
Qed.

End Orchestrator.

(** ** What a run shows *)

Section Projections.

Lemma pace_app (l l' : list event) : pace (l ++ l') = pace l ++ pace l'.
Proof.
  induction l as [|e l IH]; [reflexivity|].
  destruct e as [c|m|d]; try destruct m; cbn; now rewrite IH.
Qed.

Lemma processed_app (l l' : list event) :
  processed (l ++ l') = processed l ++ processed l'.
Proof.
  induction l as [|e l IH]; [reflexivity|].
  destruct e as [c|m|d]; try destruct m; cbn; now rewrite IH.
Qed.

Lemma summary_app (l l' : list event) :
  summary (l ++ l') = summary l ++ summary l'.
Proof.
  induction l as [|e l IH]; [reflexivity|].
  destruct e as [c|m|d]; try destruct m; cbn; now rewrite IH.
Qed.

Lemma inner_projections (l : list event) :
  Forall (fun e => inner_event e = true) l ->
  pace l = [] /\ processed l = [] /\ summary l = [].
Proof.
  induction 1 as [|e l He _ IH]; [auto|].
  destruct IH as [Hp [Hq Hs]].
  destruct e as [c|m|d]; try destruct m; cbn in *;
    try discriminate; auto.
Qed.

(** The suspensions of a run are the ones of its pace. *)
Lemma sleeps_pace (l : list event) :
  sleeps l =
  flat_map (fun x => match x with inl _ => [] | inr d => [d] end) (pace l).
Proof.
  induction l as [|e l IH]; [reflexivity|].
  destruct e as [c|m|d]; try destruct m; cbn; now rewrite IH.
Qed.


Context {S : Type}.

Lemma item_events_projections (n : nat) (d : Q) (i : nat) (url : string)
    (a : Out S bool) :
  Forall (fun e => inner_event e = true) (evs a) ->
  pace (item_events n d i url a)
  = inl i :: (if (i <? n)%nat then [inr d] else [])
  /\ processed (item_events n d i url a) = [(i, url)]
  /\ summary (item_events n d i url a) = [].
Proof.
  intros Ha. destruct (inner_projections _ Ha) as [Hp [Hq Hs]].
  unfold item_events. cbn [pace processed summary].
  rewrite !pace_app, !processed_app, !summary_app, Hp, Hq, Hs.
  destruct (res a), (i <? n)%nat; cbn; auto.
Qed.

End Projections.

Section Counting.

Lemma count_if_split {A} (f : A -> bool) (l : list A) :
  count_if f l + count_if (fun x => negb (f x)) l = List.length l.
Proof.
  unfold count_if. induction l as [|x l IH]; [reflexivity|].
  cbn. destruct (f x); cbn; lia.
Qed.

Lemma count_results (rs : list (result bool)) :
  count_if is_success rs + count_if is_failure rs = List.length rs.
Proof. exact (count_if_split is_success rs). Qed.

Lemma record_result_sum (c : counters) (r : result bool) :
  successful (record_result c r) + failed (record_result c r)
  = successful c + failed c + 1.
Proof. unfold record_result. destruct (is_success r); cbn; lia. Qed.

(** Each item moves one counter, by one. *)
Lemma record_result_one (c : counters) (r : result bool) :
  (successful (record_result c r) = successful c + 1
   /\ failed (record_result c r) = failed c)
  \/ (successful (record_result c r) = successful c
      /\ failed (record_result c r) = failed c + 1).
Proof. unfold record_result. destruct (is_success r); cbn; auto. Qed.

Lemma fold_record_result (rs : list (result bool)) (c : counters) :
  successful (fold_left record_result rs c)
  = successful c + count_if is_success rs
  /\ failed (fold_left record_result rs c)
     = failed c + count_if is_failure rs.
Proof.
  revert c. induction rs as [|r rs IH]; intros c; cbn.
  - unfold count_if; cbn; lia.
  - destruct (IH (record_result c r)) as [H1 H2]. rewrite H1, H2.
    unfold record_result, count_if, is_failure. cbn.
    destruct (is_success r); cbn; lia.
Qed.

Lemma enumerate_snd {A} (l : list A) (i : nat) :
  map snd (enumerate l i) = l.
Proof.
  unfold enumerate. revert i.
  induction l as [|x l IH]; intros i; cbn; [reflexivity|].
  now rewrite IH.
Qed.

Lemma enumerate_length {A} (l : list A) (i : nat) :
  List.length (enumerate l i) = List.length l.
Proof.
  unfold enumerate. rewrite length_combine, length_seq. lia.
Qed.


End Counting.

(** ** The bulk run *)

Section BulkRun.

Context {S : Type}.
Variable youtube : YouTube S.
Variable urlparse_error : string -> option string.


Lemma item_results_length (urls : list string) (s : S) :
  List.length (item_results youtube urlparse_error urls s) = List.length urls.
Proof.
  revert s. induction urls as [|url urls IH]; intros s; cbn;
    [reflexivity | now rewrite IH].
Qed.

Lemma loop_run_res (n : nat) (d : Q) (items : list (nat * string))
    (c : counters) (s : S) :
  res (loop_run youtube urlparse_error n d items c s)
  = Ok (fold_left record_result (item_results youtube urlparse_error
        (map snd items) s) c).
Proof.
  revert c s. induction items as [|[i url] items IH]; intros c s;
    [reflexivity|].
  cbn. apply IH.
Qed.

Lemma loop_run_shows (n : nat) (d : Q) (items : list (nat * string))
    (c : counters) (s : S) :
  processed (evs (loop_run youtube urlparse_error n d items c s)) = items
  /\ summary (evs (loop_run youtube urlparse_error n d items c s)) = [].
Proof.
  revert c s. induction items as [|[i url] items IH]; intros c s;
    [split; reflexivity|].
  cbn [loop_run evs].
  destruct (item_events_projections n d i url _
              (attempt_inner youtube urlparse_error url s)) as [_ [Hq Hs]].
  destruct (IH (record_result c (res (attempt youtube urlparse_error
        url s))) (st (attempt youtube urlparse_error
        url s)))
    as [IHq IHs].
  rewrite processed_app, summary_app, Hq, Hs, IHq, IHs. split; reflexivity.
Qed.



(** The run around the loop: the first line, the loop, the summary, and
    the rate when it can be computed. *)
Lemma bulk_subscribe_run (urls : list string) (d : Q) (s : S) :
  time_sleep_error d = None ->
  let o := loop_run youtube urlparse_error
        (List.length urls) d (enumerate urls 1) start s in
  let c := fold_left record_result (item_results youtube urlparse_error
        urls s) start in
  bulk_subscribe youtube urlparse_error urls d s =
  {| res := match success_rate c with
            | Ok _ => Ok tt
            | Raise e => Raise e
            end;
     st := st o;
     evs := Print (MsgStarting (List.length urls))
            :: evs o
            ++ [Print MsgSummary; Print (MsgSuccessful (successful c));
                Print (MsgFailed (failed c))]
            ++ match success_rate c with
               | Ok rate => [Print (MsgSuccessRate rate)]
               | Raise _ => []
               end |}.
Proof.
  intros Hd o c.
  pose proof (loop_run_res (List.length urls) d (enumerate urls 1) start s)
    as Hr.
  rewrite enumerate_snd in Hr. fold o c in Hr.
  unfold bulk_subscribe, bind, print, emit, lift.
  cbn [st res evs]. rewrite (for_each_loop _ _ _ _ Hd).
  fold start o. rewrite Hr. cbn [st res evs].
  destruct (success_rate c); cbn; rewrite ?app_nil_r, <- ?app_assoc;
    reflexivity.
Qed.

(** C1: on an empty list the run prints the two counts and then raises
    [ZeroDivisionError] where the rate is computed; the rate of 3 successes
    and 1 failure is 75. *)
Theorem empty_run_raises (d : Q) (s : S) :
  bulk_subscribe youtube urlparse_error [] d s
  = {| res := Raise ZeroDivisionError; st := s;
       evs := [Print (MsgStarting 0); Print MsgSummary;
               Print (MsgSuccessful 0); Print (MsgFailed 0)] |}
  /\ exists rate,
       success_rate {| successful := 3; failed := 1 |} = Ok rate
       /\ (rate == 75)%Q.
Proof.
  split; [reflexivity|].
  eexists; split; reflexivity.
Qed.

(** The rate is computed for every list that is not empty. *)
Lemma rate_defined (urls : list string) (s : S) :
  urls <> [] ->
  exists rate,
    success_rate (fold_left record_result (item_results youtube urlparse_error
          urls s) start)
    = Ok rate.
Proof.
  intros Hne. unfold success_rate.
  destruct (fold_record_result (item_results youtube urlparse_error
        urls s) start) as [H1 H2].
  pose proof (count_results (item_results youtube urlparse_error urls s)) as Hc.
  rewrite item_results_length in Hc.
  rewrite H1, H2. cbn [successful failed start].
  destruct ((0 + count_if is_success (item_results youtube urlparse_error
        urls s)
             + (0 + count_if is_failure (item_results youtube urlparse_error
                   urls s)) =? 0)%nat)
    eqn:E; [|eexists; reflexivity].
  apply Nat.eqb_eq in E.
  destruct urls; [congruence | cbn [List.length] in Hc; lia].
Qed.

(** The loop, whatever the delay: it returns the counters of the results
    of its items, or it is left by the error of [time.sleep]; it prints no
    line of the summary. *)
Lemma for_each_any (n : nat) (d : Q) (items : list (nat * string)) :
  forall c s,
    let o := for_each items (loop_body youtube urlparse_error n d) c s in
    (res o = Ok (fold_left record_result
                   (item_results youtube urlparse_error (map snd items) s) c)
     \/ exists e, time_sleep_error d = Some e /\ res o = Raise e)
    /\ summary (evs o) = [].
Proof.
  induction items as [|[i url] items IH]; intros c s o;
    [split; [now left | reflexivity]|].
  unfold o. cbn [for_each map snd item_results fold_left].
  pose proof (loop_body_sleep youtube urlparse_error n d i url c s) as Hb.
  cbv zeta in Hb.
  pose proof (attempt_inner youtube urlparse_error url s) as Hin.
  destruct (inner_projections _ Hin) as [_ [_ Hs]].
  destruct (item_events_projections n d i url _ Hin) as [_ [_ Hi]].
  destruct (if (i <? n)%nat then time_sleep_error d else None) as [e|] eqn:E.
  - rewrite (bind_raise _ _ _ e) by (rewrite Hb; reflexivity).
    rewrite Hb. cbn [res evs summary]. split.
    + right. exists e. split; [|reflexivity].
      destruct (i <? n)%nat; [exact E | discriminate].
    + rewrite summary_app, Hs.
      destruct (res (attempt youtube urlparse_error url s)); reflexivity.
  - erewrite bind_ok by (rewrite Hb; reflexivity).
    rewrite Hb. cbn [res st evs].
    destruct (IH (record_result c (res (attempt youtube urlparse_error url s)))
                 (st (attempt youtube urlparse_error url s))) as [H1 H2].
    split; [exact H1|]. now rewrite summary_app, Hi, H2.
Qed.

(** The run, whatever the delay: it prints no summary, or the two counts
    of the results of the items; it raises the error of [time.sleep], or
    [ZeroDivisionError] on the empty list, and nothing else. *)
Lemma bulk_subscribe_any (urls : list string) (d : Q) (s : S) :
  let run := bulk_subscribe youtube urlparse_error urls d s in
  let results := item_results youtube urlparse_error urls s in
  (summary (evs run) = []
   \/ summary (evs run)
      = [MsgSuccessful (count_if is_success results);
         MsgFailed (count_if is_failure results)])
  /\ (forall e, res run = Raise e ->
                time_sleep_error d = Some e
                \/ (urls = [] /\ e = ZeroDivisionError)).
Proof.
  intros run results. unfold run, bulk_subscribe.
  change {| successful := 0; failed := 0 |} with start.
  rewrite bind_print.
  destruct (for_each_any (List.length urls) d (enumerate urls 1) start s)
    as [Hr Hs].
  rewrite enumerate_snd in Hr. fold results in Hr.
  destruct Hr as [Hr|[e [He Hr]]].
  - erewrite bind_ok by exact Hr.
    destruct (fold_record_result results start) as [H1 H2].
    cbn [successful failed start] in H1, H2.
    unfold bind, print, emit, lift. cbn [res st evs summary].
    rewrite summary_app, Hs, H1, H2. split.
    + right. destruct (success_rate _); reflexivity.
    + intros e He. right.
      destruct (success_rate _) as [rate|x] eqn:Er; [discriminate|].
      cbn in He. inversion He; subst x.
      destruct urls as [|u urls]; [|exfalso].
      * split; [reflexivity|]. cbn in Er. now inversion Er.
      * destruct (rate_defined (u :: urls) s) as [rate Hrate];
          [discriminate|].
        fold results in Hrate. congruence.
  - rewrite (bind_raise _ _ _ e) by exact Hr.
    cbn [res evs summary]. split; [left; exact Hs|].
    intros x Hx. left. congruence.
Qed.

(** The summary of a run, from the results of the items. *)
Lemma run_summary_counts (urls : list string) (d : Q) (s : S) :
  time_sleep_error d = None ->
  List.length (item_results youtube urlparse_error urls s) = List.length urls
  /\ summary (evs (bulk_subscribe youtube urlparse_error urls d s))
     = [MsgSuccessful (count_if is_success (item_results youtube urlparse_error
      urls s));
        MsgFailed (count_if is_failure (item_results youtube urlparse_error
      urls s))].
Proof.
  intros Hd.
  split; [apply item_results_length|].
  rewrite (bulk_subscribe_run urls d s Hd). cbn [evs summary].
  destruct (loop_run_shows (List.length urls) d (enumerate urls 1) start s)
    as [_ Hs].
  destruct (fold_record_result (item_results youtube urlparse_error
      urls s) start) as [H1 H2].
  cbn [successful failed start] in H1, H2.
  rewrite !summary_app, Hs, H1, H2.
  destruct (success_rate _); reflexivity.
Qed.



(** C10: whatever the delay, each turn of the loop that returns has added
    one to one of the two counters; when the loop has gone through the first
    [k] items its counters are of sum [k]; and a summary that is printed
    gives two counts that add up to the length of the list.  The summary is
    printed when [time.sleep] accepts the delay. *)
Theorem counter_invariant (urls : list string) (d : Q) (s : S) :
  (forall n item c s' c',
     res (loop_body youtube urlparse_error n d item c s') = Ok c' ->
     (successful c' = successful c + 1 /\ failed c' = failed c)
     \/ (successful c' = successful c /\ failed c' = failed c + 1))
  /\ (forall k c,
        res (for_each (firstn k (enumerate urls 1))
                      (loop_body youtube urlparse_error (List.length urls) d)
                      start s) = Ok c ->
        successful c + failed c = Nat.min k (List.length urls))
  /\ (forall a b,
        In (MsgSuccessful a)
           (summary (evs (bulk_subscribe youtube urlparse_error urls d s))) ->
        In (MsgFailed b)
           (summary (evs (bulk_subscribe youtube urlparse_error urls d s))) ->
        a + b = List.length urls)
  /\ (time_sleep_error d = None ->
      exists a b,
        summary (evs (bulk_subscribe youtube urlparse_error urls d s))
        = [MsgSuccessful a; MsgFailed b]
        /\ a + b = List.length urls).
Proof.
  pose proof (count_results (item_results youtube urlparse_error urls s))
    as Hc.
  rewrite item_results_length in Hc.
  split.
  { intros n [i url] c s' c' H. rewrite loop_body_sleep in H. cbv zeta in H.
    destruct (if (i <? n)%nat then time_sleep_error d else None);
      [discriminate|].
    cbn in H. inversion H. apply record_result_one. }
  split.
  { intros k c H.
    destruct (for_each_any (List.length urls) d
                (firstn k (enumerate urls 1)) start s) as [[Hr|[e [_ Hr]]] _];
      [|congruence].
    rewrite Hr in H. injection H as <-.
    destruct (fold_record_result
                (item_results youtube urlparse_error
                   (map snd (firstn k (enumerate urls 1))) s)
                start) as [H1 H2].
    rewrite H1, H2. cbn [successful failed start].
    pose proof (count_results
                  (item_results youtube urlparse_error
                     (map snd (firstn k (enumerate urls 1))) s))
      as Hk.
    rewrite item_results_length, length_map, length_firstn,
      enumerate_length in Hk. lia. }
  split.
  { intros a b Ha Hb.
    destruct (proj1 (bulk_subscribe_any urls d s)) as [H|H];
      rewrite H in Ha, Hb; [destruct Ha|].
    destruct Ha as [Ha|[Ha|[]]]; [|discriminate].
    destruct Hb as [Hb|[Hb|[]]]; [discriminate|].
    inversion Ha. inversion Hb. exact Hc. }
  intros Hd. destruct (run_summary_counts urls d s Hd) as [_ Hsum].
  eexists; eexists; split; [exact Hsum | exact Hc].
Qed.

End BulkRun.

(** The example of the specification: a channel URL, a handle and a text
    that is no reference, on an account with no subscription. *)
Example example_scenario :
  bulk_subscribe Demo.account Demo.lenient Demo.references 1 []
  = {| res := Ok tt;
       st := ["UCsearched"; "UCabc123"];
       evs :=
         [Print (MsgStarting 3);
          Print (MsgProcessing 1 3 "https://www.youtube.com/channel/UCabc123");
          Request (SubscriptionsList "UCabc123");
          Request (SubscriptionsInsert "UCabc123");
          Print (MsgSubscribed "UCabc123");
          Sleep 1;
          Print (MsgProcessing 2 3 "https://www.youtube.com/@someuser");
          Request (SearchList "@someuser");
          Request (SubscriptionsList "UCsearched");
          Request (SubscriptionsInsert "UCsearched");
          Print (MsgSubscribed "UCsearched");
          Sleep 1;
          Print (MsgProcessing 3 3 "not-a-url");
          Print (MsgErrorProcessing "not-a-url"
                   (ValueError "Unable to parse channel URL: not-a-url"));
          Print MsgSummary;
          Print (MsgSuccessful 2);
          Print (MsgFailed 1);
          Print (MsgSuccessRate (200 # 3))] |}.
Proof. reflexivity. Qed.

(** A negative delay stops the run at its first suspension. *)
Example negative_delay_stops :
  res (bulk_subscribe Demo.account Demo.lenient Demo.references (-1) [])
  = Raise (ValueError "sleep length must be non-negative").
Proof. reflexivity. Qed.

(** A delay of ten thousand million seconds does not fit the clock. *)
Example long_delay_stops :
  res (bulk_subscribe Demo.account Demo.lenient Demo.references
         10000000000 [])
  = Raise OverflowError.
Proof. reflexivity. Qed.

Lemma one_second : time_sleep_error 1 = None.
Proof. reflexivity. Qed.




Lemma counter_invariant_witness :
  exists a b,
    summary
      (evs (bulk_subscribe Demo.account Demo.lenient Demo.references 1 []))
    = [MsgSuccessful a; MsgFailed b]
    /\ a + b = 3.
Proof.
  exact (proj2 (proj2 (proj2 (counter_invariant Demo.account Demo.lenient
                                Demo.references 1 []))) one_second).
Defined.



(** * More of the program *)

(** ** The resolver, beyond the handle *)

Section ResolverMore.

Context {S : Type}.
Variable youtube : YouTube S.
Variable urlparse_error : string -> option string.

(** A reference with [c/] and no [@] is searched by the text between the
    last [c/] and the first [?] after it, as it is. *)
Theorem custom_url_search_query (url : string) (s : S) :
  contains "@" url = false ->
  contains "c/" url = true ->
  exists name,
    segment_after "c/" url name
    /\ requests (evs (resolve_custom_url youtube url s)) = [SearchList name]
    /\ (urlparse_error url = None -> contains "channel/" url = false ->
        requests (evs (extract_channel_id youtube urlparse_error url s))
        = [SearchList name]).
Proof.
  intros Hat Hc.
  exists (first_piece (split "?" (last_piece (split "c/" url)))).
  pose proof (resolve_custom_url_requests youtube url s) as Hr.
  rewrite Hat in Hr.
  split; [apply segment_after_split; [discriminate | exact Hc]|].
  split; [exact Hr|].
  intros Hp Hch. unfold extract_channel_id, urlparse, bind.
  rewrite Hp, Hch, Hc. cbn. exact Hr.
Qed.

(** The lookup by user name is requested only for a reference with [user/]
    and none of [channel/], [c/] and [@], and then with the text between
    the last [user/] and the first [?] after it; it is the only request. *)
Theorem username_lookup_only_for_user_urls (url username : string) (s : S) :
  In (Request (ChannelsList username))
     (evs (extract_channel_id youtube urlparse_error url s)) ->
  contains "channel/" url = false
  /\ contains "c/" url = false
  /\ contains "@" url = false
  /\ contains "user/" url = true
  /\ segment_after "user/" url username
  /\ requests (evs (extract_channel_id youtube urlparse_error url s))
     = [ChannelsList username].
Proof.
  unfold extract_channel_id, urlparse, bind.
  destruct (urlparse_error url); cbn; [tauto|].
  destruct (contains "channel/" url); cbn; [tauto|].
  destruct (contains "c/" url) eqn:Hc; cbn.
  { intros H. apply in_requests in H.
    rewrite resolve_custom_url_requests in H. destruct H as [H|[]].
    discriminate H. }
  destruct (contains "@" url) eqn:Hat; cbn.
  { intros H. apply in_requests in H.
    rewrite resolve_custom_url_requests in H. destruct H as [H|[]].
    discriminate H. }
  destruct (contains "user/" url) eqn:Hu; cbn; [|tauto].
  intros H.
  assert (Hr : forall u,
             requests (evs (get_channel_id_by_username youtube u s))
             = [ChannelsList u]).
  { intros u.
    unfold get_channel_id_by_username, try_except, bind, execute.
    destruct (channels_list youtube u s) as [[[|x l]|e] s1]; cbn;
      try destruct e; reflexivity. }
  apply in_requests in H. rewrite Hr in H. destruct H as [H|[]].
  inversion H; subst.
  repeat split; auto.
  apply segment_after_split; [discriminate | exact Hu].
Qed.

(** Whatever the reference, its resolution sends one request at most. *)
Theorem extract_channel_id_one_request (url : string) (s : S) :
  List.length (requests (evs (extract_channel_id youtube urlparse_error url s)))
  <= 1.
Proof.
  unfold extract_channel_id, urlparse, bind.
  destruct (urlparse_error url); cbn; [lia|].
  destruct (contains "channel/" url); cbn; [lia|].
  destruct (contains "c/" url || contains "@" url); cbn.
  - rewrite resolve_custom_url_requests. cbn. lia.
  - destruct (contains "user/" url); cbn; [|lia].
    unfold get_channel_id_by_username, try_except, bind, execute.
    destruct (channels_list youtube _ s) as [[[|x l]|e] s1]; cbn;
      try destruct e; cbn; lia.
Qed.

(** A search that finds nothing is a [ValueError] that names the
    reference, and a lookup by user name that finds nothing is a
    [ValueError] that names the user name, each after its one request and
    with nothing printed. *)
Theorem lookup_without_result (url username : string) (s s1 : S) :
  (forall q,
     requests (evs (resolve_custom_url youtube url s)) = [SearchList q] ->
     search_list youtube q s = (Ok [], s1) ->
     resolve_custom_url youtube url s
     = {| res := Raise (ValueError
                          ("Could not find channel for URL: " ++ url)%string);
          st := s1; evs := [Request (SearchList q)] |})
  /\ (channels_list youtube username s = (Ok [], s1) ->
      get_channel_id_by_username youtube username s
      = {| res := Raise (ValueError
                           ("Channel not found for username: "
                            ++ username)%string);
           st := s1; evs := [Request (ChannelsList username)] |}).
Proof.
  split.
  - intros q Hq Hs. rewrite resolve_custom_url_requests in Hq.
    assert (Hq' :
              (if contains "@" url
               then ("@" ++ first_piece
                              (split "?" (last_piece (split "@" url))))%string
               else first_piece (split "?" (last_piece (split "c/" url))))
              = q) by (injection Hq; auto).
    subst q.
    unfold resolve_custom_url, try_except, bind, execute. cbv zeta.
    rewrite Hs. reflexivity.
  - intros Hc.
    unfold get_channel_id_by_username, try_except, bind, execute.
    rewrite Hc. reflexivity.
Qed.

(** An error of the search goes through [resolve_custom_url] as it is: an
    [HttpError] after one line that tells it, another error with no line. *)
Theorem search_error_reraised (url : string) (s s1 : S) (e : exn) :
  (forall q, search_list youtube q s = (Raise e, s1)) ->
  res (resolve_custom_url youtube url s) = Raise e
  /\ st (resolve_custom_url youtube url s) = s1
  /\ filter (fun ev => match ev with Print _ => true | _ => false end)
            (evs (resolve_custom_url youtube url s))
     = match e with
       | HttpError _ => [Print (MsgErrorResolving url e)]
       | _ => []
       end.
Proof.
  intros Hs. unfold resolve_custom_url, try_except, bind, execute.
  rewrite Hs. destruct e; cbn; auto.
Qed.

End ResolverMore.

(** ** The subscription, beyond its errors *)

Section SubscriptionMore.

Context {S : Type}.
Variable youtube : YouTube S.

(** A creation is requested for the channel of the call only, and only
    after a listing that answered no entry or raised an [HttpError]: never
    when the listing shows a subscription. *)
Theorem creation_only_after_check (c c' : string) (s : S) :
  In (Request (SubscriptionsInsert c'))
     (evs (subscribe_to_channel youtube c s)) ->
  c' = c
  /\ exists s1,
       subscriptions_list youtube c s = (Ok [], s1)
       \/ exists content,
            subscriptions_list youtube c s = (Raise (HttpError content), s1).
Proof.
  rewrite subscribe_to_channel_table. unfold subscribe_table.
  assert (Hc : forall s1,
             In (Request (SubscriptionsInsert c'))
                (evs (creation youtube c s1)) -> c' = c).
  { intros s1 H. destruct (creation_sends youtube c s1) as [tail Ht].
    apply in_requests in H.
    assert (Hr : requests (evs (creation youtube c s1))
                 = [SubscriptionsList c; SubscriptionsInsert c]).
    { unfold creation.
      destruct (subscriptions_insert youtube c s1) as [[[]|e] s2];
        [reflexivity|].
      destruct e; try reflexivity.
      destruct (error_reason content) as [reason|x]; [|reflexivity].
      destruct (PyJson.eq_str reason "subscriptionDuplicate"); reflexivity. }
    rewrite Hr in H. destruct H as [H|[H|[]]]; [discriminate|].
    now inversion H. }
  destruct (subscriptions_list youtube c s) as [[[|x l]|e] s1]; cbn.
  - intros H. split; [eauto|]. exists s1. now left.
  - intros [H|[H|[]]]; discriminate.
  - destruct e; cbn; try (intros [H|[]]; discriminate).
    intros H. split; [eauto|]. exists s1. right. now exists content.
Qed.

(** The requests of one call: the listing, then the creation or nothing. *)
Theorem subscribe_requests (c : string) (s : S) :
  requests (evs (subscribe_to_channel youtube c s)) = [SubscriptionsList c]
  \/ requests (evs (subscribe_to_channel youtube c s))
     = [SubscriptionsList c; SubscriptionsInsert c].
Proof.
  rewrite subscribe_to_channel_table. unfold subscribe_table.
  assert (Hc : forall s1,
             requests (evs (creation youtube c s1))
             = [SubscriptionsList c; SubscriptionsInsert c]).
  { intros s1. unfold creation.
    destruct (subscriptions_insert youtube c s1) as [[[]|e] s2];
      [reflexivity|].
    destruct e; try reflexivity.
    destruct (error_reason content) as [reason|x]; [|reflexivity].
    destruct (PyJson.eq_str reason "subscriptionDuplicate"); reflexivity. }
  destruct (subscriptions_list youtube c s) as [[[|x l]|e] s1]; cbn.
  - right. apply Hc.
  - now left.
  - destruct e; cbn; try (now left). right. apply Hc.
Qed.

(** The errors of reading the reason of a body. *)
Lemma error_reason_raises (body : option json) (x : exn) :
  error_reason body = Raise x ->
  x = AttributeError \/ x = IndexError \/ x = TypeError
  \/ (exists k, x = KeyError k) \/ (exists m, x = ValueError m).
Proof.
  assert (Hb : forall A B (r : result A) (f : A -> result B),
             rbind r f = Raise x ->
             r = Raise x \/ exists v, r = Ok v /\ f v = Raise x).
  { intros A B [v|e] f H; cbn in H; [right; eauto | left; congruence]. }
  assert (Hg : forall d k default,
             PyJson.get d k default = Raise x -> x = AttributeError).
  { intros d k default H. destruct d; cbn in H; inversion H; reflexivity. }
  unfold error_reason. intros H.
  apply Hb in H as [H|[j [_ H]]].
  { destruct body; cbn in H; inversion H. right. right. right. right. eauto. }
  apply Hb in H as [H|[j1 [_ H]]]; [left; eapply Hg; exact H|].
  apply Hb in H as [H|[j2 [_ H]]]; [left; eapply Hg; exact H|].
  apply Hb in H as [H|[j3 [_ H]]]; [|left; eapply Hg; exact H].
  right. destruct j2 as [| | |str|items|]; cbn in H;
    try (inversion H; auto; fail).
  - destruct str; inversion H; auto.
  - destruct items; inversion H; auto.
  - inversion H. right. right. left. eauto.
Qed.

Lemma subscribe_not_http_error (c : string) (s : S)
    (content : option json) :
  res (subscribe_to_channel youtube c s) <> Raise (HttpError content).
Proof.
  rewrite subscribe_to_channel_table. unfold subscribe_table.
  assert (Hr : forall body x, error_reason body = Raise x ->
                              x <> HttpError content).
  { intros body x H. apply error_reason_raises in H.
    destruct H as [H|[H|[H|[[k H]|[m H]]]]]; subst; discriminate. }
  assert (Hc : forall s1, res (creation youtube c s1)
                          <> Raise (HttpError content)).
  { intros s1. unfold creation.
    destruct (subscriptions_insert youtube c s1) as [[[]|e] s2];
      [discriminate|].
    destruct e; try discriminate.
    destruct (error_reason content0) as [reason|x] eqn:E.
    - destruct (PyJson.eq_str reason "subscriptionDuplicate"); discriminate.
    - cbn. intros H. inversion H. exact (Hr _ _ E H1). }
  destruct (subscriptions_list youtube c s) as [[[|x l]|e] s1]; cbn.
  - apply Hc.
  - discriminate.
  - destruct e; cbn; try discriminate. apply Hc.
Qed.

(** The call never raises an [HttpError]: the one of the listing is
    dropped, the one of the creation is answered by [True] or [False], or
    replaced by the error of reading its body. *)
Theorem subscribe_never_raises_http_error (c : string) (s : S) :
  match res (subscribe_to_channel youtube c s) with
  | Raise (HttpError _) => False
  | _ => True
  end.
Proof.
  destruct (res (subscribe_to_channel youtube c s)) as [b|e] eqn:E; [exact I|].
  destruct e; try exact I.
  exact (subscribe_not_http_error c s content E).
Qed.

(** The reason of an error body is ["unknown"] when the body is an object
    with no ["error"], or its ["error"] has no ["errors"], or the first of
    the ["errors"] has no ["reason"]; and the reason is read from the first
    of the ["errors"] only, whatever the ones after it tell. *)
Theorem error_reason_defaults (members : list (string * json)) :
  (PyJson.assoc "error" members = None ->
   error_reason (Some (JObj members)) = Ok (JStr "unknown"))
  /\ (forall inner,
        PyJson.assoc "error" members = Some (JObj inner) ->
        PyJson.assoc "errors" inner = None ->
        error_reason (Some (JObj members)) = Ok (JStr "unknown"))
  /\ (forall inner first others,
        PyJson.assoc "error" members = Some (JObj inner) ->
        PyJson.assoc "errors" inner = Some (JArr (JObj first :: others)) ->
        error_reason (Some (JObj members))
        = Ok (match PyJson.assoc "reason" first with
              | Some reason => reason
              | None => JStr "unknown"
              end)).
Proof.
  unfold error_reason, rbind, PyJson.loads. cbn [PyJson.get].
  repeat split.
  - intros H. rewrite H. reflexivity.
  - intros inner H1 H2. rewrite H1. cbn. rewrite H2. reflexivity.
  - intros inner first others H1 H2. rewrite H1. cbn. rewrite H2.
    reflexivity.
Qed.

(** An [HttpError] of the creation whose body has an empty list of
    ["errors"] makes the call raise [IndexError]: it answers neither [True]
    nor [False]. *)
Theorem empty_errors_list_raises (c : string) (s s1 s2 : S)
    (members inner : list (string * json)) :
  subscriptions_list youtube c s = (Ok [], s1) ->
  subscriptions_insert youtube c s1
  = (Raise (HttpError (Some (JObj members))), s2) ->
  PyJson.assoc "error" members = Some (JObj inner) ->
  PyJson.assoc "errors" inner = Some (JArr []) ->
  subscribe_to_channel youtube c s
  = {| res := Raise IndexError; st := s2;
       evs := [Request (SubscriptionsList c);
               Request (SubscriptionsInsert c)] |}.
Proof.
  intros Hl Hi H1 H2. rewrite subscribe_to_channel_table.
  unfold subscribe_table, creation. rewrite Hl, Hi.
  unfold error_reason, rbind, PyJson.loads. cbn [PyJson.get].
  rewrite H1. cbn. rewrite H2. reflexivity.
Qed.

End SubscriptionMore.

(** ** Surrounding white space *)

Module StripFacts.

Lemma lstrip_head (s : string) :
  lstrip s = "" \/ exists c t, lstrip s = String c t /\ isspace c = false.
Proof.
  induction s as [|c s IH]; [now left|].
  cbn. destruct (isspace c) eqn:E; [exact IH|].
  right. now exists c, s.
Qed.

Lemma lstrip_fixed (c : ascii) (t : string) :
  isspace c = false -> lstrip (String c t) = String c t.
Proof. intros H. cbn. now rewrite H. Qed.

Lemma rstrip_head (c : ascii) (t : string) :
  isspace c = false -> exists t', rstrip (String c t) = String c t'.
Proof.
  intros H. cbn. destruct (rstrip t); rewrite ?H; eauto.
Qed.

Lemma rstrip_idempotent (s : string) : rstrip (rstrip s) = rstrip s.
Proof.
  induction s as [|c s IH]; [reflexivity|].
  cbn [rstrip]. destruct (rstrip s) as [|c' t] eqn:E.
  - destruct (isspace c) eqn:Hc; [reflexivity|].
    cbn. now rewrite Hc.
  - change (rstrip (String c (String c' t)))
      with (match rstrip (String c' t) with
            | "" => if isspace c then "" else String c ""
            | String _ _ as t0 => String c t0
            end).
    rewrite IH. reflexivity.
Qed.

(** Stripping twice is stripping once. *)
Lemma strip_idempotent (s : string) : strip (strip s) = strip s.
Proof.
  unfold strip. destruct (lstrip_head s) as [H|[c [t [H Hc]]]]; rewrite H.
  - reflexivity.
  - destruct (rstrip_head c t Hc) as [t' Ht]. rewrite Ht.
    rewrite lstrip_fixed by exact Hc. rewrite <- Ht.
    apply rstrip_idempotent.
Qed.

Lemma rstrip_last (s : string) :
  rstrip s = "" \/
  exists t c, rstrip s = (t ++ String c "")%string /\ isspace c = false.
Proof.
  induction s as [|c s IH]; [now left|].
  cbn [rstrip]. destruct (rstrip s) as [|c' t'] eqn:E.
  - destruct (isspace c) eqn:Hc; [now left|].
    right. exists "", c. auto.
  - right. destruct IH as [IH|[t [x [IH Hx]]]]; [discriminate|].
    exists (String c t), x. cbn. now rewrite IH.
Qed.

(** What is left of a text has no white space at its ends. *)
Lemma strip_ends (s : string) :
  strip s = "" \/
  exists first t last t',
    strip s = String first t
    /\ strip s = (t' ++ String last "")%string
    /\ isspace first = false /\ isspace last = false.
Proof.
  unfold strip. destruct (lstrip_head s) as [H|[c [t [H Hc]]]]; rewrite H.
  - now left.
  - right. destruct (rstrip_head c t Hc) as [t1 Ht].
    destruct (rstrip_last (String c t)) as [Hl|[t2 [x [Hl Hx]]]];
      [rewrite Ht in Hl; discriminate|].
    exists c, t1, x, t2. auto.
Qed.

End StripFacts.

(** ** The run, beyond the claims *)

Section BulkMore.

Context {S : Type}.
Variable youtube : YouTube S.
Variable urlparse_error : string -> option string.

(** White space around a reference does not count: the item runs as for
    the reference without it. *)
Theorem attempt_ignores_surrounding_space (urls : list string) (s : S) :
  item_results youtube urlparse_error (map strip urls) s
  = item_results youtube urlparse_error urls s.
Proof.
  revert s. induction urls as [|url urls IH]; intros s; [reflexivity|].
  cbn [map item_results]. unfold attempt at 1 3.
  rewrite StripFacts.strip_idempotent. fold (attempt youtube urlparse_error url).
  unfold attempt at 2. rewrite StripFacts.strip_idempotent.
  fold (attempt youtube urlparse_error url). now rewrite IH.
Qed.

Lemma attempt_requests (url : string) (s : S) :
  List.length (requests (evs (attempt youtube urlparse_error url s))) <= 3.
Proof.
  unfold attempt, bind.
  pose proof (extract_channel_id_one_request youtube urlparse_error
                (strip url) s) as He.
  destruct (extract_channel_id youtube urlparse_error (strip url) s)
    as [[id|e] s1 ev1]; cbn in *; [|lia].
  rewrite requests_app, length_app.
  destruct (subscribe_requests youtube id s1) as [H|H]; rewrite H; cbn; lia.
Qed.

Lemma item_requests (n : nat) (d : Q) (i : nat) (url : string) (s : S) :
  requests (item_events n d i url (attempt youtube urlparse_error url s))
  = requests (evs (attempt youtube urlparse_error url s))
  /\ requests (Print (MsgProcessing i n url)
               :: evs (attempt youtube urlparse_error url s)
               ++ match res (attempt youtube urlparse_error url s) with
                  | Raise x => [Print (MsgErrorProcessing url x)]
                  | Ok _ => []
                  end)
     = requests (evs (attempt youtube urlparse_error url s)).
Proof.
  unfold item_events. cbn [requests]. rewrite !requests_app.
  destruct (res (attempt youtube urlparse_error url s)), (i <? n)%nat;
    cbn; now rewrite ?app_nil_r.
Qed.

(** The loop sends three requests for each item at most, whatever the
    delay. *)
Lemma for_each_requests (n : nat) (d : Q) (items : list (nat * string)) :
  forall c s,
    List.length
      (requests
         (evs (for_each items (loop_body youtube urlparse_error n d) c s)))
    <= 3 * List.length items.
Proof.
  induction items as [|[i url] items IH]; intros c s; [cbn; lia|].
  cbn [for_each].
  pose proof (loop_body_sleep youtube urlparse_error n d i url c s) as Hb.
  cbv zeta in Hb.
  destruct (item_requests n d i url s) as [H1 H2].
  pose proof (attempt_requests url s) as Ha.
  destruct (if (i <? n)%nat then time_sleep_error d else None) as [e|].
  - rewrite (bind_raise _ _ _ e) by (rewrite Hb; reflexivity).
    rewrite Hb. cbn [evs]. rewrite H2. cbn [List.length]. lia.
  - erewrite bind_ok by (rewrite Hb; reflexivity).
    rewrite Hb. cbn [res st evs]. rewrite requests_app, length_app, H1.
    specialize (IH (record_result c
                      (res (attempt youtube urlparse_error url s)))
                   (st (attempt youtube urlparse_error url s))).
    cbn [List.length]. lia.
Qed.

(** A run over [N] references sends [3 N] requests at most. *)
Theorem run_requests_bounded (urls : list string) (d : Q) (s : S) :
  (0 <= d)%Q ->
  List.length (requests (evs (bulk_subscribe youtube urlparse_error urls d s)))
  <= 3 * List.length urls.
Proof.
  intros _. unfold bulk_subscribe. rewrite bind_print. cbn [evs requests].
  pose proof (for_each_requests (List.length urls) d (enumerate urls 1)
                {| successful := 0; failed := 0 |} s) as H.
  rewrite enumerate_length in H.
  destruct (res (for_each (enumerate urls 1)
                   (loop_body youtube urlparse_error (List.length urls) d)
                   {| successful := 0; failed := 0 |} s)) as [c|e] eqn:E.
  - erewrite bind_ok by exact E. cbn [evs]. rewrite requests_app.
    unfold bind, print, emit, lift. cbn [res st evs].
    destruct (success_rate c); cbn [res st evs requests app];
      rewrite app_nil_r; exact H.
  - rewrite (bind_raise _ _ _ e) by exact E. exact H.
Qed.

(** A delay from nothing to 9223372036 seconds (292 years) is one that
    [time.sleep] accepts. *)
Lemma usual_delay_accepted (d : Q) :
  (0 <= d)%Q -> (d <= 9223372036)%Q -> time_sleep_error d = None.
Proof.
  intros H0 H1. unfold time_sleep_error.
  assert (Hn : (0 <= nanoseconds d <= 9223372036000000000)%Z).
  { unfold nanoseconds. destruct d as [num den].
    unfold Qle in H0, H1. cbn in H0, H1 |- *.
    rewrite Pos.mul_1_r.
    assert (Hx : (0 <= num * 1000000000)%Z) by lia.
    apply Z.leb_le in Hx. rewrite Hx. apply Z.leb_le in Hx.
    assert (Hq : (- (num * 1000000000) / Z.pos den <= 0)%Z)
      by (apply Z.div_le_upper_bound; lia).
    assert (Hl : (- 9223372036000000000
                  <= - (num * 1000000000) / Z.pos den)%Z)
      by (apply Z.div_le_lower_bound; lia).
    lia. }
  assert (H63 : (2 ^ 63 = 9223372036854775808)%Z) by reflexivity.
  destruct (nanoseconds d <? - 2 ^ 63)%Z eqn:E1;
    [apply Z.ltb_lt in E1; lia|].
  destruct (2 ^ 63 <=? nanoseconds d)%Z eqn:E2;
    [apply Z.leb_le in E2; lia|].
  destruct (nanoseconds d <? 0)%Z eqn:E3; [apply Z.ltb_lt in E3; lia|].
  reflexivity.
Qed.

(** A negative delay is one that [time.sleep] refuses. *)
Lemma negative_delay_refused (d : Q) :
  (d < 0)%Q -> exists e, time_sleep_error d = Some e.
Proof.
  intros Hd. unfold time_sleep_error.
  assert (Hn : (nanoseconds d < 0)%Z).
  { unfold nanoseconds. destruct d as [num den].
    unfold Qlt in Hd. cbn in Hd |- *.
    assert (Hx : (num * 1000000000 < 0)%Z) by lia.
    destruct (0 <=? num * 1000000000)%Z eqn:E; [lia|].
    apply Z.div_lt_upper_bound; lia. }
  destruct ((nanoseconds d <? - 2 ^ 63)%Z || (2 ^ 63 <=? nanoseconds d)%Z);
    [eauto|].
  apply Z.ltb_lt in Hn. rewrite Hn. eauto.
Qed.

(** With a delay that [time.sleep] refuses (a negative one, or one too
    long for its clock) and two references or more, the run stops at its
    first suspension: it raises the error of [time.sleep] after the first
    item, no other item is started and no summary is printed. *)
Theorem refused_delay_aborts (first second : string) (others : list string)
    (d : Q) (s : S) :
  let run :=
    bulk_subscribe youtube urlparse_error (first :: second :: others) d s in
  ((d < 0)%Q -> exists e, time_sleep_error d = Some e)
  /\ (forall e,
        time_sleep_error d = Some e ->
        res run = Raise e
        /\ processed (evs run) = [(1, first)]
        /\ summary (evs run) = []
        /\ sleeps (evs run) = []
        /\ st run = st (attempt youtube urlparse_error first s)).
Proof.
  intros run. split; [apply negative_delay_refused|].
  intros e Hb.
  pose proof (attempt_inner youtube urlparse_error first s) as Hin.
  destruct (inner_projections _ Hin) as [Hp [Hq Hs]].
  assert (Hrun : run =
    {| res := Raise e;
       st := st (attempt youtube urlparse_error first s);
       evs := Print (MsgStarting (List.length (first :: second :: others)))
              :: Print (MsgProcessing 1
                          (List.length (first :: second :: others)) first)
              :: evs (attempt youtube urlparse_error first s)
              ++ match res (attempt youtube urlparse_error first s) with
                 | Raise x => [Print (MsgErrorProcessing first x)]
                 | Ok _ => []
                 end |}).
  { assert (Hl : forall c,
               loop_body youtube urlparse_error
                 (List.length (first :: second :: others)) d (1, first) c s
               = {| res := Raise e;
                    st := st (attempt youtube urlparse_error first s);
                    evs := Print (MsgProcessing 1
                                    (List.length (first :: second :: others))
                                    first)
                           :: evs (attempt youtube urlparse_error first s)
                           ++ match
                                res (attempt youtube urlparse_error first s)
                              with
                              | Raise x => [Print (MsgErrorProcessing first x)]
                              | Ok _ => []
                              end |}).
    { intros c.
      exact (loop_body_stops youtube urlparse_error
               (List.length (first :: second :: others)) d 1
               first c s e Hb eq_refl). }
    unfold run, bulk_subscribe. rewrite bind_print.
    unfold enumerate. cbn [seq combine for_each].
    change (List.length (first :: second :: others))
      with (Datatypes.S (Datatypes.S (List.length others))) in *.
    cbn [seq combine for_each].
    erewrite (bind_raise (bind _ _));
      [|erewrite bind_raise; [reflexivity | rewrite Hl; reflexivity]].
    erewrite bind_raise by (rewrite Hl; reflexivity).
    rewrite Hl. reflexivity. }
  rewrite Hrun. cbn [res st evs processed summary].
  rewrite processed_app, summary_app, Hq, Hs.
  repeat split; try (destruct (res (attempt youtube urlparse_error first s));
                     reflexivity).
  rewrite sleeps_pace. cbn [pace]. rewrite pace_app, Hp.
  destruct (res (attempt youtube urlparse_error first s)); reflexivity.
Qed.

End BulkMore.

Section RateAndRepeats.

(** The rate is a percentage: when it is computed it lies between 0 and
    100, and it is computed as soon as one item was counted. *)
Theorem success_rate_range (c : counters) :
  (0 < successful c + failed c)%nat ->
  exists rate,
    success_rate c = Ok rate /\ (0 <= rate)%Q /\ (rate <= 100)%Q.
Proof.
  intros Hpos. unfold success_rate.
  destruct ((successful c + failed c =? 0)%nat) eqn:E.
  { apply Nat.eqb_eq in E. lia. }
  eexists; split; [reflexivity|].
  set (a := Z.of_nat (successful c)).
  set (b := Z.of_nat (successful c + failed c)).
  assert (Ha : (0 <= a)%Z) by (unfold a; lia).
  assert (Hab : (a <= b)%Z) by (unfold a, b; lia).
  assert (Hb : (0 < b)%Z) by (unfold b; lia).
  destruct b as [|pb|pb]; try lia.
  unfold Qle, Qdiv, Qmult, Qinv, inject_Z. cbn.
  split; nia.
Qed.

Context {S : Type}.
Variable youtube : YouTube S.
Variable urlparse_error : string -> option string.
Variable subscribed : string -> S -> Prop.
Hypothesis service : keeps_subscriptions youtube subscribed.

(** On a service that keeps its subscriptions, a channel URL that succeeded
    succeeds again when it comes back in the list: the second time the item
    is a success by "Already subscribed", with no creation that takes
    effect. *)
Theorem repeated_reference_succeeds (url : string) (s : S) :
  urlparse_error (strip url) = None ->
  contains "channel/" (strip url) = true ->
  let first := attempt youtube urlparse_error url s in
  let second := attempt youtube urlparse_error url (st first) in
  res first = Ok true ->
  res second = Ok true /\ outcome_of second = Some AlreadySubscribed.
Proof.
  intros Hp Hc first second Hr.
  assert (Hx : forall s0,
             attempt youtube urlparse_error url s0
             = subscribe_to_channel youtube
                 (first_piece
                    (split "?" (last_piece (split "channel/" (strip url)))))
                 s0).
  { intros s0. unfold attempt, bind, extract_channel_id, urlparse.
    rewrite Hp, Hc. cbn.
    destruct (subscribe_to_channel youtube _ s0); reflexivity. }
  unfold second, first in *. rewrite !Hx in *.
  pose proof (success_is_subscribed youtube subscribed service _ _ Hr) as Hs.
  pose proof (subscribed_is_already youtube subscribed service _ _ Hs) as Ha.
  split; [|exact Ha].
  revert Ha. generalize (subscribe_to_channel youtube
    (first_piece (split "?" (last_piece (split "channel/" (strip url)))))
    (st (subscribe_to_channel youtube
           (first_piece
              (split "?" (last_piece (split "channel/" (strip url)))))
           s))).
  intros o. unfold outcome_of.
  destruct (res o) as [[|]|]; [reflexivity| |discriminate].
  destruct (rev (evs o)) as [|[|m|] ?]; try discriminate.
  destruct m; discriminate.
Qed.

End RateAndRepeats.

Section RunReport.

Context {S : Type}.
Variable youtube : YouTube S.
Variable urlparse_error : string -> option string.


End RunReport.

(** ** The list of references *)

Section CsvFacts.

Import Csv.

Lemma cell_of_clean (row : list string) (u : string) :
  In u (cell_of row) ->
  u <> "" /\ strip u = u
  /\ exists cell, nth_error row 1 = Some cell /\ u = strip cell.
Proof.
  unfold cell_of. destruct (nth_error row 1) as [cell|]; [|intros []].
  destruct (strip cell) eqn:E; [intros []|].
  intros [H|[]]. subst u. split; [discriminate|].
  rewrite <- E. split; [apply StripFacts.strip_idempotent | eauto].
Qed.

(** Nothing is loaded when the file is missing, cannot be opened, or fails
    while it is read: the rows read before the failure are dropped. *)
Theorem csv_failure_loads_nothing (csv_file : string) (f : file) :
  f = Missing \/ (exists e, f = OpenFails e)
  \/ (exists rows e, f = Content rows (Some e)) ->
  snd (load_urls_from_csv csv_file f) = [].
Proof.
  intros [->|[[e ->]|[rows [e ->]]]]; try reflexivity.
  destruct rows as [|first_row rest]; [destruct e; reflexivity|].
  unfold load_urls_from_csv.
  destruct (nth_error first_row 1); reflexivity.
Qed.

(** A first row with less than two cells (a blank first line) empties the
    list, whatever the other rows hold. *)
Theorem csv_short_first_row (csv_file : string) (first_row : list string)
    (rest : list (list string)) (failure : option exn) :
  List.length first_row < 2 ->
  load_urls_from_csv csv_file (Content (first_row :: rest) failure)
  = ([MsgEmptyOrMalformed], []).
Proof.
  intros H. unfold load_urls_from_csv.
  assert (Hn : nth_error first_row 1 = None) by (apply nth_error_None; lia).
  now rewrite Hn.
Qed.

(** Every reference that is loaded is the second cell of a row of the
    file, without the white space around it, and is not empty. *)
Theorem csv_urls_clean (csv_file : string) (rows : list (list string))
    (failure : option exn) (u : string) :
  In u (snd (load_urls_from_csv csv_file (Content rows failure))) ->
  u <> "" /\ strip u = u
  /\ exists row cell,
       In row rows /\ nth_error row 1 = Some cell /\ u = strip cell.
Proof.
  destruct rows as [|first_row rest].
  { destruct failure as [[]|]; intros []. }
  unfold load_urls_from_csv.
  destruct (nth_error first_row 1) as [cell|] eqn:E; [|intros []].
  destruct failure; [intros []|].
  cbn [snd]. intros H.
  assert (Hin : In u (flat_map cell_of (first_row :: rest))).
  { cbn [flat_map]. destruct (negb (looks_like_url cell)); cbn [snd] in H.
    - apply in_or_app. now right.
    - exact H. }
  apply in_flat_map in Hin as [row [Hrow Hu]].
  destruct (cell_of_clean row u Hu) as [H1 [H2 [c [H3 H4]]]].
  repeat split; auto. exists row, c. auto.
Qed.

(** The header is optional: a first row whose second cell holds none of
    [youtube.com], [youtu.be] and [http] (in any case of the letters) is
    left out, and the rows after it are loaded as if they came first. *)
Theorem csv_header_optional (csv_file : string) (header row : list string)
    (rest : list (list string)) (title cell : string) :
  nth_error header 1 = Some title -> looks_like_url title = false ->
  nth_error row 1 = Some cell -> looks_like_url cell = true ->
  snd (load_urls_from_csv csv_file (Content (header :: row :: rest) None))
  = snd (load_urls_from_csv csv_file (Content (row :: rest) None))
  /\ snd (load_urls_from_csv csv_file (Content (row :: rest) None))
     = flat_map cell_of (row :: rest).
Proof.
  intros Hh Ht Hr Hc. unfold load_urls_from_csv.
  rewrite Hh, Hr, Ht, Hc. cbn [negb snd fst app flat_map]. auto.
Qed.

End CsvFacts.

Example load_sheet :
  Csv.load_urls_from_csv "subscriptions.csv" DemoStart.sheet
  = ([Csv.MsgSkippingHeader ["Channel"; "Link"];
      Csv.MsgLoaded 2 "subscriptions.csv"],
     ["https://www.youtube.com/channel/UCabc123";
      "https://www.youtube.com/@someuser"]).
Proof. reflexivity. Qed.

Example lower_mixed : Csv.looks_like_url "HTTPS://YouTube.COM/x" = true.
Proof. reflexivity. Qed.

(** ** The start of the program *)

Section AuthenticateFacts.

Context {C F Y : Type}.
Variable google : GoogleAuth C F Y.

Lemma build_client_disk (c : C) (d : Disk C) (done : list auth_event) :
  disk (build_client google c d done) = d
  /\ client (build_client google c d done) = build google c
  /\ (forall a, In a (did (build_client google c d done)) ->
                In a done \/ a = PrintAuthenticated).
Proof.
  unfold build_client. destruct (build google c); cbn; repeat split; auto.
  intros a H. apply in_app_or in H as [H|[H|[]]]; auto.
Qed.

Lemma interactive_flow_steps (file : string) (d : Disk C) (a : auth_event) :
  In a (snd (interactive_flow google file d)) ->
  a = BrowserFlow /\ credentials_present d = true.
Proof.
  unfold interactive_flow.
  destruct (credentials_present d); cbn; [|intros []].
  destruct (from_client_secrets_file google file); cbn; [|intros []].
  destruct (run_local_server google f); cbn; intros [H|[]]; auto.
Qed.

(** A valid token is used as it is: the client is built from it, the disk
    is not touched, the token is neither refreshed nor saved and the
    browser is not opened. *)
Theorem cached_token_reused (file : string) (d : Disk C) (c : C) :
  token d = Some (inl c) -> valid google c = true ->
  let a := authenticate google file d in
  client a = build google c /\ disk a = d
  /\ forall step, In step (did a) -> step = PrintAuthenticated.
Proof.
  intros Ht Hv a. unfold a, authenticate. rewrite Ht, Hv.
  destruct (build_client_disk c d []) as [H1 [H2 H3]].
  repeat split; auto.
  intros step H. destruct (H3 step H) as [[]|]; auto.
Qed.

(** With no credentials file, and no token that is valid or can be
    refreshed, the start fails with [FileNotFoundError]; nothing is done and
    the disk is not touched. *)
Theorem missing_credentials_file (file : string) (d : Disk C) :
  credentials_present d = false ->
  (token d = None
   \/ exists c, token d = Some (inl c) /\ valid google c = false
                /\ expired google c && refresh_token google c = false) ->
  exists msg,
    authenticate google file d
    = {| client := inr (FileNotFoundError msg); disk := d; did := [] |}.
Proof.
  intros Hc Ht. unfold authenticate, renew_and_build, renew, interactive_flow.
  destruct Ht as [Ht|[c [Ht [Hv Hr]]]]; rewrite Ht.
  - rewrite Hc. cbn. eexists; reflexivity.
  - rewrite Hv, Hr, Hc. cbn. eexists; reflexivity.
Qed.

(** The browser is opened only when the credentials file is there and the
    token is absent, or not valid with no way to refresh it: never for a
    token that cannot be read, and never after a refresh, even one that
    failed. *)
Theorem browser_flow_only_when_needed (file : string) (d : Disk C) :
  In BrowserFlow (did (authenticate google file d)) ->
  credentials_present d = true
  /\ ~ In TokenRefreshed (did (authenticate google file d))
  /\ (token d = None
      \/ exists c, token d = Some (inl c) /\ valid google c = false
                   /\ expired google c && refresh_token google c = false).
Proof.
  unfold authenticate.
  assert (Hb : forall c d' done,
             In BrowserFlow (did (build_client google c d' done)) ->
             In BrowserFlow done).
  { intros c d' done H.
    destruct (build_client_disk c d' done) as [_ [_ H3]].
    destruct (H3 _ H) as [|]; [assumption | discriminate]. }
  assert (Hr : forall creds,
             In BrowserFlow (did (renew_and_build google file d creds)) ->
             renew google file d creds = interactive_flow google file d ->
             credentials_present d = true
             /\ ~ In TokenRefreshed
                     (did (renew_and_build google file d creds))).
  { intros creds H Heq. unfold renew_and_build in *. rewrite Heq in *.
    destruct (interactive_flow google file d) as [[c|e] done] eqn:E.
    - assert (Hs : forall a, In a done ->
                             a = BrowserFlow /\ credentials_present d = true).
      { intros a Ha. apply (interactive_flow_steps file d).
        now rewrite E. }
      destruct (write_error d); cbn in *.
      + destruct (Hs _ H) as [_ Hp]. split; [exact Hp|].
        intros Hx. destruct (Hs _ Hx). discriminate.
      + apply Hb in H. apply in_app_or in H as [H|[H|[]]];
          [|discriminate].
        destruct (Hs _ H) as [_ Hp]. split; [exact Hp|].
        intros Hx.
        destruct (build_client_disk c (with_token d (Some (inl c)))
                    (done ++ [TokenSaved])) as [_ [_ H3]].
        destruct (H3 _ Hx) as [Hy|Hy]; [|discriminate].
        apply in_app_or in Hy as [Hy|[Hy|[]]]; [|discriminate].
        destruct (Hs _ Hy). discriminate.
    - cbn in *.
      assert (Hs : forall a, In a done ->
                             a = BrowserFlow /\ credentials_present d = true).
      { intros a Ha. apply (interactive_flow_steps file d).
        now rewrite E. }
      destruct (Hs _ H) as [_ Hp]. split; [exact Hp|].
      intros Hx. destruct (Hs _ Hx). discriminate. }
  destruct (token d) as [[c|e]|] eqn:Ht.
  - destruct (valid google c) eqn:Hv.
    { intros H. apply Hb in H. destruct H. }
    destruct (expired google c && refresh_token google c) eqn:He.
    + unfold renew_and_build, renew. rewrite He.
      destruct (refresh google c) as [c'|e]; cbn.
      * destruct (write_error d); cbn; [intros [H|[]]; discriminate|].
        intros H. apply Hb in H. cbn in H.
        destruct H as [H|[H|[]]]; discriminate.
      * intros [H|[]]; discriminate.
    + intros H.
      assert (Heq : renew google file d (Some c)
                    = interactive_flow google file d).
      { unfold renew. now rewrite He. }
      destruct (Hr _ H Heq) as [H1 H2]. repeat split; auto.
      right. exists c. auto.
  - intros [].
  - intros H. destruct (Hr None H eq_refl) as [H1 H2]. repeat split; auto.
Qed.

(** New credentials are saved before the client is built: once they are
    obtained and written, the token file holds them, whatever [build]
    does. *)
Theorem token_saved_before_build (file : string) (d : Disk C) (c : C)
    (done : list auth_event) :
  (token d = None
   \/ exists old, token d = Some (inl old) /\ valid google old = false) ->
  renew google file d
    (match token d with Some (inl old) => Some old | _ => None end)
  = (inl c, done) ->
  write_error d = None ->
  let a := authenticate google file d in
  token (disk a) = Some (inl c)
  /\ credentials_present (disk a) = credentials_present d
  /\ client a = build google c.
Proof.
  intros Ht Hr Hw a. unfold a, authenticate, renew_and_build.
  destruct Ht as [Ht|[old [Ht Hv]]]; rewrite Ht in *; rewrite ?Hv;
    rewrite Hr, Hw;
    destruct (build_client_disk c (with_token d (Some (inl c)))
                (done ++ [TokenSaved])) as [H1 [H2 _]];
    rewrite H1, H2; auto.
Qed.

(** After a start that succeeds, the token file holds the credentials the
    client was built from: the next start finds them. *)
Theorem success_leaves_token (file : string) (d : Disk C) (y : Y) :
  client (authenticate google file d) = inl y ->
  exists c,
    token (disk (authenticate google file d)) = Some (inl c)
    /\ build google c = inl y.
Proof.
  unfold authenticate.
  assert (Hr : forall creds,
             client (renew_and_build google file d creds) = inl y ->
             exists c,
               token (disk (renew_and_build google file d creds))
               = Some (inl c)
               /\ build google c = inl y).
  { intros creds. unfold renew_and_build.
    destruct (renew google file d creds) as [[c|e] done];
      [|discriminate].
    destruct (write_error d); [discriminate|].
    destruct (build_client_disk c (with_token d (Some (inl c)))
                (done ++ [TokenSaved])) as [H1 [H2 _]].
    rewrite H1, H2. intros H. exists c. auto. }
  destruct (token d) as [[c|e]|] eqn:Ht.
  - destruct (valid google c).
    + destruct (build_client_disk c d []) as [H1 [H2 _]].
      rewrite H1, H2. intros H. exists c. auto.
    + apply Hr.
  - discriminate.
  - apply Hr.
Qed.

End AuthenticateFacts.

Section MainFacts.

Context {S C F : Type}.
Variable google : GoogleAuth C F (YouTube S).
Variable urlparse_error : string -> option string.

Lemma run_of_main_returns (youtube : YouTube S) (urls : list string) (s : S) :
  urls <> [] ->
  res (bulk_subscribe youtube urlparse_error urls 1 s) = Ok tt.
Proof.
  intros Hne.
  assert (Hd : time_sleep_error 1 = None) by reflexivity.
  rewrite (bulk_subscribe_run youtube urlparse_error urls 1 s Hd).
  cbn [res].
  destruct (rate_defined youtube urlparse_error urls s Hne) as [rate Hr].
  now rewrite Hr.
Qed.

(** With no reference loaded, [main] prints the usage and stops: it does
    not authenticate, sends no request, and leaves the disk and the service
    as they are. *)
Theorem main_without_urls (f : Csv.file) (d : Disk C) (s : S) :
  snd (Csv.load_urls_from_csv "subscriptions.csv" f) = [] ->
  main google urlparse_error f d s
  = ((map Loading (fst (Csv.load_urls_from_csv "subscriptions.csv" f))
      ++ [PrintUsage])%list, d, s).
Proof.
  intros H. unfold main.
  destruct (Csv.load_urls_from_csv "subscriptions.csv" f) as [lines urls].
  cbn in H. subst urls. reflexivity.
Qed.

(** [main] never runs the loop on an empty list, and its delay is one
    second: the line "Unexpected error" can only tell an error of the
    start, never one of the run ([ZeroDivisionError] included). *)
Theorem main_unexpected_error_is_of_start (f : Csv.file) (d : Disk C)
    (s : S) (e : exn) :
  In (PrintUnexpectedError e) (fst (fst (main google urlparse_error f d s))) ->
  client (authenticate google "credentials.json" d) = inr (OtherError e)
  /\ snd (main google urlparse_error f d s) = s.
Proof.
  unfold main.
  destruct (Csv.load_urls_from_csv "subscriptions.csv" f) as [lines urls].
  assert (Hl : forall A (g : A -> main_event) (l : list A),
             (forall a, g a <> PrintUnexpectedError e) ->
             ~ In (PrintUnexpectedError e) (map g l)).
  { intros A g l Hg H. apply in_map_iff in H as [a [Ha _]].
    exact (Hg a Ha). }
  destruct urls as [|u urls]; cbn [fst snd].
  { intros H. apply in_app_or in H as [H|[H|[]]]; [|discriminate].
    exfalso. revert H. apply Hl. discriminate. }
  destruct (client (authenticate google "credentials.json" d))
    as [youtube|[msg|e']]; cbn [fst snd]; intros H;
    apply in_app_or in H as [H|H];
    try (exfalso; revert H; apply Hl; discriminate);
    apply in_app_or in H as [H|H];
    try (exfalso; revert H; apply Hl; discriminate).
  - apply in_app_or in H as [H|H];
      [exfalso; revert H; apply Hl; discriminate|].
    rewrite run_of_main_returns in H by discriminate. destruct H.
  - destruct H as [H|[]]. discriminate.
  - destruct H as [H|[]]. inversion H. auto.
Qed.

(** When the start succeeds, [main] runs the loop on the list that was
    loaded, whose references are not empty and have no white space around
    them, and ends with the summary of the run. *)
Theorem main_runs_loaded_list (f : Csv.file) (d : Disk C) (s : S)
    (youtube : YouTube S) :
  snd (Csv.load_urls_from_csv "subscriptions.csv" f) <> [] ->
  client (authenticate google "credentials.json" d) = inl youtube ->
  let urls := snd (Csv.load_urls_from_csv "subscriptions.csv" f) in
  let run := bulk_subscribe youtube urlparse_error urls 1 s in
  main google urlparse_error f d s
  = ((map Loading (fst (Csv.load_urls_from_csv "subscriptions.csv" f))
      ++ map Authenticating (did (authenticate google "credentials.json" d))
      ++ map Running (evs run))%list,
     disk (authenticate google "credentials.json" d), st run)
  /\ res run = Ok tt
  /\ Forall (fun u => u <> "" /\ strip u = u) urls.
Proof.
  intros Hne Hc urls run. unfold main.
  assert (Hclean : Forall (fun u => u <> "" /\ strip u = u) urls).
  { apply Forall_forall. intros u Hu. unfold urls in Hu.
    destruct f as [|e|rows failure]; try (cbn in Hu; contradiction).
    destruct (csv_urls_clean _ _ _ _ Hu) as [H1 [H2 _]]. auto. }
  pose proof (run_of_main_returns youtube urls s Hne) as Hr.
  unfold run, urls in *.
  destruct (Csv.load_urls_from_csv "subscriptions.csv" f) as [lines l].
  cbn [fst snd] in *. destruct l as [|u l]; [congruence|].
  rewrite Hc, Hr. rewrite app_nil_r. auto.
Qed.

End MainFacts.

(** ** The properties above, on the services and the start of the examples *)

Lemma custom_url_search_query_witness :
  exists name,
    segment_after "c/" "https://www.youtube.com/c/TechLead?tab=1" name
    /\ requests (evs (resolve_custom_url Demo.account
                        "https://www.youtube.com/c/TechLead?tab=1" []))
       = [SearchList name].
Proof.
  destruct (custom_url_search_query Demo.account Demo.lenient
              "https://www.youtube.com/c/TechLead?tab=1" [] eq_refl eq_refl)
    as [name [Hs [H _]]].
  exists name. split; assumption.
Defined.

Lemma username_lookup_only_for_user_urls_witness :
  segment_after "user/" "https://www.youtube.com/user/bob?x=1" "bob".
Proof.
  exact (proj1 (proj2 (proj2 (proj2 (proj2
    (username_lookup_only_for_user_urls Demo.account Demo.lenient
       "https://www.youtube.com/user/bob?x=1" "bob" []
       (or_introl eq_refl))))))).
Defined.

Lemma lookup_without_result_witness :
  resolve_custom_url Demo.account "https://www.youtube.com/c/nobody" []
  = {| res := Raise (ValueError
                       "Could not find channel for URL: https://www.youtube.com/c/nobody");
       st := []; evs := [Request (SearchList "nobody")] |}
  /\ get_channel_id_by_username Demo.account "bob" []
     = {| res := Raise (ValueError "Channel not found for username: bob");
          st := []; evs := [Request (ChannelsList "bob")] |}.
Proof.
  destruct (lookup_without_result Demo.account
              "https://www.youtube.com/c/nobody" "bob" [] []) as [H1 H2].
  split; [exact (H1 "nobody" eq_refl eq_refl) | exact (H2 eq_refl)].
Defined.

Lemma search_error_reraised_witness :
  res (resolve_custom_url Demo.over_quota "https://www.youtube.com/@a" tt)
  = Raise (HttpError (Demo.error_body "quotaExceeded")).
Proof.
  exact (proj1 (search_error_reraised Demo.over_quota
                  "https://www.youtube.com/@a" tt tt _ (fun _ => eq_refl))).
Defined.

Lemma creation_only_after_check_witness :
  exists s1,
    subscriptions_list Demo.account "UC1" [] = (Ok [], s1)
    \/ exists content,
         subscriptions_list Demo.account "UC1" []
         = (Raise (HttpError content), s1).
Proof.
  exact (proj2 (creation_only_after_check Demo.account "UC1" "UC1" []
                  (or_intror (or_introl eq_refl)))).
Defined.

Lemma error_reason_defaults_witness :
  error_reason (Some (JObj [("message", JStr "Forbidden")]))
  = Ok (JStr "unknown").
Proof.
  exact (proj1 (error_reason_defaults [("message", JStr "Forbidden")])
               eq_refl).
Defined.

Lemma empty_errors_list_raises_witness :
  subscribe_to_channel DemoStart.empty_errors "UC1" tt
  = {| res := Raise IndexError; st := tt;
       evs := [Request (SubscriptionsList "UC1");
               Request (SubscriptionsInsert "UC1")] |}.
Proof.
  exact (empty_errors_list_raises DemoStart.empty_errors "UC1" tt tt tt
           _ _ eq_refl eq_refl eq_refl eq_refl).
Defined.

Lemma run_requests_bounded_witness :
  List.length
    (requests
       (evs (bulk_subscribe Demo.account Demo.lenient Demo.references 1 [])))
  <= 9.
Proof.
  refine (run_requests_bounded Demo.account Demo.lenient Demo.references 1 []
            _).
  discriminate.
Defined.

Lemma minus_one_second :
  time_sleep_error (-1)
  = Some (ValueError "sleep length must be non-negative").
Proof. reflexivity. Qed.

Lemma refused_delay_aborts_witness :
  res (bulk_subscribe Demo.account Demo.lenient Demo.references (-1) [])
  = Raise (ValueError "sleep length must be non-negative")
  /\ processed
       (evs (bulk_subscribe Demo.account Demo.lenient Demo.references
               (-1) []))
     = [(1, "https://www.youtube.com/channel/UCabc123")].
Proof.
  destruct (proj2 (refused_delay_aborts Demo.account Demo.lenient
                     "https://www.youtube.com/channel/UCabc123"
                     "https://www.youtube.com/@someuser" ["not-a-url"]
                     (-1) []) _ minus_one_second) as [H1 [H2 _]].
  split; assumption.
Defined.

Lemma success_rate_range_witness :
  exists rate,
    success_rate {| successful := 2; failed := 1 |} = Ok rate
    /\ (0 <= rate)%Q /\ (rate <= 100)%Q.
Proof.
  apply (success_rate_range {| successful := 2; failed := 1 |}).
  cbn. lia.
Defined.

Lemma repeated_reference_succeeds_witness :
  outcome_of
    (attempt Demo.account Demo.lenient " https://www.youtube.com/channel/UC1"
       (st (attempt Demo.account Demo.lenient
              " https://www.youtube.com/channel/UC1" [])))
  = Some AlreadySubscribed.
Proof.
  exact (proj2 (repeated_reference_succeeds Demo.account Demo.lenient _
                  account_keeps_subscriptions
                  " https://www.youtube.com/channel/UC1" []
                  eq_refl eq_refl eq_refl)).
Defined.


Lemma csv_failure_loads_nothing_witness :
  snd (Csv.load_urls_from_csv "subscriptions.csv"
         (Csv.Content [["Name"; "https://www.youtube.com/@a"]]
                      (Some (ValueError "invalid start byte"))))
  = [].
Proof.
  apply csv_failure_loads_nothing. right. right.
  eexists; eexists; reflexivity.
Defined.

Lemma csv_short_first_row_witness :
  Csv.load_urls_from_csv "subscriptions.csv"
    (Csv.Content [[]; ["Name"; "https://www.youtube.com/@a"]] None)
  = ([Csv.MsgEmptyOrMalformed], []).
Proof.
  apply csv_short_first_row. cbn. lia.
Defined.

Lemma csv_urls_clean_witness :
  "https://www.youtube.com/channel/UCabc123" <> ""
  /\ strip "https://www.youtube.com/channel/UCabc123"
     = "https://www.youtube.com/channel/UCabc123".
Proof.
  destruct (csv_urls_clean "subscriptions.csv"
              [["Channel"; "Link"];
               ["First"; "  https://www.youtube.com/channel/UCabc123 "];
               ["Second"];
               ["Third"; "   "];
               ["Fourth"; "https://www.youtube.com/@someuser"]]
              None "https://www.youtube.com/channel/UCabc123"
              (or_introl eq_refl)) as [H1 [H2 _]].
  split; assumption.
Defined.

Lemma csv_header_optional_witness :
  snd (Csv.load_urls_from_csv "subscriptions.csv"
         (Csv.Content [["Channel"; "Link"];
                       ["First"; "https://youtu.be/x"]; ["Second"]] None))
  = snd (Csv.load_urls_from_csv "subscriptions.csv"
           (Csv.Content [["First"; "https://youtu.be/x"]; ["Second"]] None)).
Proof.
  exact (proj1 (csv_header_optional "subscriptions.csv"
                  ["Channel"; "Link"] ["First"; "https://youtu.be/x"]
                  [["Second"]] "Link" "https://youtu.be/x"
                  eq_refl eq_refl eq_refl eq_refl)).
Defined.

Lemma cached_token_reused_witness :
  disk (authenticate DemoStart.google "credentials.json"
          (DemoStart.disk_with (Some (inl DemoStart.Fresh)) false))
  = DemoStart.disk_with (Some (inl DemoStart.Fresh)) false.
Proof.
  exact (proj1 (proj2 (cached_token_reused DemoStart.google
                         "credentials.json"
                         (DemoStart.disk_with (Some (inl DemoStart.Fresh))
                                              false)
                         DemoStart.Fresh eq_refl eq_refl))).
Defined.

Lemma missing_credentials_file_witness :
  exists msg,
    authenticate DemoStart.google "credentials.json"
      (DemoStart.disk_with None false)
    = {| client := inr (FileNotFoundError msg);
         disk := DemoStart.disk_with None false; did := [] |}.
Proof.
  apply missing_credentials_file; [reflexivity | now left].
Defined.

Lemma browser_flow_only_when_needed_witness :
  credentials_present (DemoStart.disk_with (Some (inl DemoStart.Revoked)) true)
  = true.
Proof.
  exact (proj1 (browser_flow_only_when_needed DemoStart.google
                  "credentials.json"
                  (DemoStart.disk_with (Some (inl DemoStart.Revoked)) true)
                  (or_introl eq_refl))).
Defined.

Lemma token_saved_before_build_witness :
  token (disk (authenticate DemoStart.google "credentials.json"
                 (DemoStart.disk_with (Some (inl DemoStart.Stale)) false)))
  = Some (inl DemoStart.Fresh).
Proof.
  refine (proj1 (token_saved_before_build DemoStart.google "credentials.json"
                   (DemoStart.disk_with (Some (inl DemoStart.Stale)) false)
                   DemoStart.Fresh [TokenRefreshed] _ eq_refl eq_refl)).
  right. exists DemoStart.Stale. split; reflexivity.
Defined.

Lemma success_leaves_token_witness :
  exists c,
    token (disk (authenticate DemoStart.google "credentials.json"
                   (DemoStart.disk_with None true)))
    = Some (inl c)
    /\ build DemoStart.google c = inl Demo.account.
Proof.
  apply success_leaves_token. reflexivity.
Defined.

Lemma main_without_urls_witness :
  main DemoStart.google Demo.lenient Csv.Missing
       (DemoStart.disk_with None true) []
  = ([Loading (Csv.MsgNotFound "subscriptions.csv"); PrintUsage],
     DemoStart.disk_with None true, []).
Proof.
  exact (main_without_urls DemoStart.google Demo.lenient Csv.Missing
           (DemoStart.disk_with None true) [] eq_refl).
Defined.

Lemma main_unexpected_error_is_of_start_witness :
  client (authenticate DemoStart.google "credentials.json"
            (DemoStart.disk_with
               (Some (inr (OtherError (ValueError "bad pickle")))) true))
  = inr (OtherError (ValueError "bad pickle")).
Proof.
  refine (proj1 (main_unexpected_error_is_of_start DemoStart.google
                   Demo.lenient DemoStart.sheet
                   (DemoStart.disk_with
                      (Some (inr (OtherError (ValueError "bad pickle"))))
                      true)
                   [] (ValueError "bad pickle") _)).
  vm_compute. right. right. left. reflexivity.
Defined.

Lemma main_runs_loaded_list_witness :
  snd (main DemoStart.google Demo.lenient DemoStart.sheet
         (DemoStart.disk_with None true) [])
  = ["UCsearched"; "UCabc123"].
Proof.
  destruct (main_runs_loaded_list DemoStart.google Demo.lenient
              DemoStart.sheet (DemoStart.disk_with None true) []
              Demo.account ltac:(discriminate) eq_refl) as [H _].
  rewrite H. reflexivity.
Defined.
